(** * Plugin runners: a shallow embedding of [internal/runner]

    The development follows the Go package [runner]: the local command
    runner ([cmd_runner.go]) and the container runner
    ([container_runner.go]), both implementing the [Runner] interface of
    [runner.go].

    Go strings are byte strings and are modelled by [string]; Go's [int] is
    modelled by [Z] (no arithmetic is performed on it by this package).
    Functions of Go's standard library that the package calls ([strings],
    [path], [net], [fmt]) are transcribed from their Go definitions.  The
    operating system and the container engine are collaborators: every
    operation of a runner takes the answers they give as explicit
    arguments and records the requests it issues in a trace. *)

From Stdlib Require Import String Ascii List ZArith Bool Arith Lia.
From Stdlib Require Import DecimalString DecimalPos DecimalZ.
Import ListNotations.

Open Scope string_scope.
Open Scope list_scope.

(** ** Errors and results *)

Module Go.

(** Go's [error] values.  [errorString] is what [errors.New] and
    [fmt.Errorf] (without [%w]) build; [UnknownNetworkError] is the type of
    package [net]; [ExternalError] stands for an error value handed back by
    the operating system or the container engine, which the runners pass
    along untouched. *)
Inductive error : Type :=
| errorString (msg : string)
| UnknownNetworkError (network : string)
| ExternalError (msg : string).

Definition Error (e : error) : string :=
  match e with
  | errorString msg => msg
  | UnknownNetworkError network => "unknown network " ++ network
  | ExternalError msg => msg
  end.

Definition errors_New (msg : string) : error := errorString msg.

(** A Go result pair [(T, error)] of which exactly one side is set. *)
Inductive result (A : Type) : Type :=
| Ok (a : A)
| Err (e : error).
Arguments Ok {A} a.
Arguments Err {A} e.

Definition is_err {A} (r : result A) : bool :=
  match r with Ok _ => false | Err _ => true end.

(** [fmt.Sprintf("%d", n)] for an integer. *)
Definition fmt_d (n : Z) : string := NilZero.string_of_int (Z.to_int n).

End Go.
Export Go.

(** ** Package [strings] *)

Module strings.

(** [func HasPrefix(s, prefix string) bool
      { return len(s) >= len(prefix) && s[:len(prefix)] == prefix }] *)
Definition HasPrefix (s prefix : string) : bool :=
  (String.length prefix <=? String.length s)%nat
  && String.eqb (substring 0 (String.length prefix) s) prefix.

(** [func TrimPrefix(s, prefix string) string
      { if HasPrefix(s, prefix) { return s[len(prefix):] }; return s }] *)
Definition TrimPrefix (s prefix : string) : string :=
  if HasPrefix s prefix
  then substring (String.length prefix) (String.length s - String.length prefix) s
  else s.

(** [strings.Contains]: [substr] occurs somewhere in [s]. *)
Fixpoint Contains (s substr : string) : bool :=
  HasPrefix s substr ||
  match s with
  | EmptyString => false
  | String _ s' => Contains s' substr
  end.

End strings.

(** ** Package [path] *)

Module path.

Definition is_slash (c : ascii) : bool := Ascii.eqb c "/".
Definition is_dot (c : ascii) : bool := Ascii.eqb c ".".

(** The test [r+k == n || path[r+k] == '/'] on the unread input. *)
Definition end_or_slash (rest : string) : bool :=
  match rest with
  | EmptyString => true
  | String c _ => is_slash c
  end.

(** The output buffer [out] of [Clean] is kept as the list of the bytes
    written so far, the most recent first; [out.w] is its length and
    [out.append(c)] is [c :: out]. *)
Definition lazybuf := list ascii.

Definition lazybuf_string (out : lazybuf) : string :=
  string_of_list_ascii (rev out).

(** Backtracking over one element:
    [out.w--; for out.w > dotdot && out.index(out.w) != '/' { out.w-- }].
    [last] is the byte at index [out.w], the one dropped last. *)
Fixpoint backtrack_from (dotdot : nat) (last : ascii) (out : lazybuf) : lazybuf :=
  match out with
  | [] => []
  | c :: out' =>
      if (dotdot <? List.length out)%nat && negb (is_slash last)
      then backtrack_from dotdot c out'
      else out
  end.

Definition backtrack (dotdot : nat) (out : lazybuf) : lazybuf :=
  match out with
  | [] => []
  | c :: out' => backtrack_from dotdot c out'
  end.

(** Copying one element:
    [for ; r < n && path[r] != '/'; r++ { out.append(path[r]) }].
    Returns the unread input and the buffer. *)
Fixpoint copy_element (rest : string) (out : lazybuf) : string * lazybuf :=
  match rest with
  | EmptyString => (rest, out)
  | String c rest' =>
      if is_slash c then (rest, out) else copy_element rest' (c :: out)
  end.

(** The main loop [for r < n { switch ... }] of [Clean]: [rest] is
    [path[r:]], the state is [(out, dotdot)].  Every turn reads at least
    one byte, so [fuel = len(path)] turns are enough. *)
Fixpoint clean_loop (fuel : nat) (rooted : bool) (rest : string)
    (out : lazybuf) (dotdot : nat) : lazybuf * nat :=
  match fuel with
  | O => (out, dotdot)
  | S fuel' =>
      match rest with
      | EmptyString => (out, dotdot)
      | String c rest1 =>
          if is_slash c then
            (* empty path element *)
            clean_loop fuel' rooted rest1 out dotdot
          else if is_dot c && end_or_slash rest1 then
            (* . element *)
            clean_loop fuel' rooted rest1 out dotdot
          else if is_dot c
                  && match rest1 with
                     | String c1 rest2 => is_dot c1 && end_or_slash rest2
                     | EmptyString => false
                     end then
            (* .. element: remove to last / *)
            let rest2 := match rest1 with
                         | String _ rest2 => rest2
                         | EmptyString => EmptyString
                         end in
            if (dotdot <? List.length out)%nat then
              (* can backtrack *)
              clean_loop fuel' rooted rest2 (backtrack dotdot out) dotdot
            else if negb rooted then
              (* cannot backtrack, but not rooted, so append .. element *)
              let out1 := if (0 <? List.length out)%nat then "/"%char :: out else out in
              let out2 := "."%char :: "."%char :: out1 in
              clean_loop fuel' rooted rest2 out2 (List.length out2)
            else
              clean_loop fuel' rooted rest2 out dotdot
          else
            (* real path element: add slash if needed, copy element *)
            let out1 :=
              if (rooted && negb (List.length out =? 1)%nat)
                 || (negb rooted && negb (List.length out =? 0)%nat)
              then "/"%char :: out else out in
            let '(rest', out2) := copy_element rest out1 in
            clean_loop fuel' rooted rest' out2 dotdot
      end
  end.

(** The loop with exactly the fuel its input needs. *)
Definition clean_run (rooted : bool) (rest : string) (out : lazybuf) (dotdot : nat)
  : lazybuf * nat :=
  clean_loop (String.length rest) rooted rest out dotdot.

(** [rooted := path[0] == '/'] and the state in which the loop of [Clean]
    ends on a path that is not empty. *)
Definition is_rooted (path : string) : bool :=
  match path with
  | EmptyString => false
  | String c0 _ => is_slash c0
  end.

Definition clean_state (path : string) : lazybuf * nat :=
  match path with
  | EmptyString => ([], 0)
  | String c0 rest0 =>
      if is_slash c0
      then clean_run true rest0 ["/"%char] 1
      else clean_run false path [] 0
  end.

(** [func Clean(path string) string] *)
Definition Clean (path : string) : string :=
  match path with
  | EmptyString => "."
  | String c0 rest0 =>
      let rooted := is_slash c0 in
      let '(out, _) :=
        if rooted
        then clean_loop (String.length path) rooted rest0 ["/"%char] 1
        else clean_loop (String.length path) rooted path [] 0 in
      (* Turn empty string into "." *)
      match out with
      | [] => "."
      | _ => lazybuf_string out
      end
  end.

(** The buffer built by the second loop of [Join]:
    [if len(buf) > 0 || len(e) > 0 { if len(buf) > 0 { buf = append(buf, '/') };
       buf = append(buf, e...) }]. *)
Fixpoint join_buf (buf : string) (elem : list string) : string :=
  match elem with
  | [] => buf
  | e :: elem' =>
      if (0 <? String.length buf)%nat || negb (String.eqb e EmptyString)
      then join_buf ((if (0 <? String.length buf)%nat then buf ++ "/" else buf) ++ e) elem'
      else join_buf buf elem'
  end.

(** [func Join(elem ...string) string] *)
Definition Join (elem : list string) : string :=
  let size := fold_left (fun n e => n + String.length e) elem 0 in
  if (size =? 0)%nat then EmptyString else Clean (join_buf EmptyString elem).

End path.

(** ** Package [net] *)

Module net.

Record TCPAddr : Type := mkTCPAddr { IP : list Z; Port : Z; Zone : string }.

(** The implementations of [net.Addr] that the runners return. *)
Inductive Addr : Type :=
| UnixAddr (Name Net : string)
| TCP (a : TCPAddr).

(** [net.ResolveUnixAddr(network, address)]: the three Unix networks
    give [&UnixAddr{Name: address, Net: network}], any other one fails. *)
Definition ResolveUnixAddr (network address : string) : result Addr :=
  if String.eqb network "unix" || String.eqb network "unixgram"
     || String.eqb network "unixpacket"
  then Ok (UnixAddr address network)
  else Err (UnknownNetworkError network).

End net.

(** ** The world outside the runners *)

Module os.

(** The process table, the file system and the engine client are observed
    through [World]: the paths that exist (each under the one name by
    which it is known here, the one the runner uses for it), whether the
    engine client connection is still open, and the requests issued so far
    (oldest first). *)
Inductive Event : Type :=
| EvCmdStart
| EvCmdWait
| EvProcessKill (pid : Z)
| EvContainerCreate (image : string)
| EvContainerStart (id : string)
| EvContainerLogs (id : string)
| EvDemuxSpawned (id : string)
| EvContainerWait (id : string)
| EvContainerStop (id : string)
| EvRemoveAll (path : string)
| EvClientClose.

Record World : Type := mkWorld {
  fs : list string;
  clientOpen : bool;
  trace : list Event
}.

Definition emit (e : Event) (w : World) : World :=
  mkWorld (fs w) (clientOpen w) (trace w ++ [e]).

(** [p] is [dir] itself or lies beneath it. *)
Definition under (dir p : string) : bool :=
  String.eqb p dir || strings.HasPrefix p (dir ++ "/").

(** [os.RemoveAll(path)]: removes [path] and any children it contains; the
    empty path is left alone (Go returns nil for it without touching
    anything).  Failures of the underlying system calls are not modelled:
    the runner discards the result of this call. *)
Definition RemoveAll (path : string) (w : World) : World :=
  let w1 := emit (EvRemoveAll path) w in
  if String.eqb path EmptyString then w1
  else mkWorld (filter (fun p => negb (under path p)) (fs w1))
               (clientOpen w1) (trace w1).

(** [client.Close()] on the engine client. *)
Definition ClientClose (w : World) : World :=
  let w1 := emit EvClientClose w in
  mkWorld (fs w1) false (trace w1).

End os.
Export os.

(** Reader handles returned by [Stdout()] and [Stderr()]. *)
Inductive ReadCloser : Type :=
| CmdPipe (fd : nat)
| IoPipe (id : string) (stderr : bool).

(** ** Package [os/exec] *)

Module exec.

(** [exec.Cmd], the fields this package touches.  [Process] is [nil]
    until [Start] has spawned the child; [waited] says that
    [ProcessState] is set. *)
Record Cmd : Type := mkCmd {
  Path : string;
  Args : list string;
  Env : list string;
  StdoutSet : bool;
  StderrSet : bool;
  Process : option Z;
  waited : bool
}.

(** [cmd.StdoutPipe()]; [pipe] is the answer of [os.Pipe()]. *)
Definition StdoutPipe (pipe : result ReadCloser) (c : Cmd) : Cmd * result ReadCloser :=
  if StdoutSet c then (c, Err (errors_New "exec: Stdout already set"))
  else match Process c with
       | Some _ => (c, Err (errors_New "exec: StdoutPipe after process started"))
       | None =>
           match pipe with
           | Err e => (c, Err e)
           | Ok pr => (mkCmd (Path c) (Args c) (Env c) true (StderrSet c)
                             (Process c) (waited c), Ok pr)
           end
       end.

(** [cmd.StderrPipe()]. *)
Definition StderrPipe (pipe : result ReadCloser) (c : Cmd) : Cmd * result ReadCloser :=
  if StderrSet c then (c, Err (errors_New "exec: Stderr already set"))
  else match Process c with
       | Some _ => (c, Err (errors_New "exec: StderrPipe after process started"))
       | None =>
           match pipe with
           | Err e => (c, Err e)
           | Ok pr => (mkCmd (Path c) (Args c) (Env c) (StdoutSet c) true
                             (Process c) (waited c), Ok pr)
           end
       end.

(** [cmd.Start()]; [spawn] is the answer of the operating system: the pid
    of the child, or the reason why it could not be spawned. *)
Definition Start (spawn : result Z) (c : Cmd) (w : World) : Cmd * option error * World :=
  match Process c with
  | Some _ => (c, Some (errors_New "exec: already started"), w)
  | None =>
      let w1 := emit EvCmdStart w in
      match spawn with
      | Err e => (c, Some e, w1)
      | Ok pid => (mkCmd (Path c) (Args c) (Env c) (StdoutSet c) (StderrSet c)
                         (Some pid) (waited c), None, w1)
      end
  end.

(** [cmd.Wait()]; [exit] is what waiting for the child reports. *)
Definition Wait (exit : option error) (c : Cmd) (w : World) : Cmd * option error * World :=
  match Process c with
  | None => (c, Some (errors_New "exec: not started"), w)
  | Some _ =>
      if waited c then (c, Some (errors_New "exec: Wait was already called"), w)
      else (mkCmd (Path c) (Args c) (Env c) (StdoutSet c) (StderrSet c)
                  (Process c) true, exit, emit EvCmdWait w)
  end.

(** [cmd.Process.Kill()]; [answer] is what delivering the signal reports. *)
Definition ProcessKill (answer : option error) (pid : Z) (w : World) : option error * World :=
  (answer, emit (EvProcessKill pid) w).

End exec.

(** ** The local command runner ([cmd_runner.go]) *)

Module CmdRunner.

(** [type CmdRunner struct].  [cmd] is a pointer shared with the caller;
    the field holds the current contents of that object. *)
Record t : Type := mk {
  cmd : exec.Cmd;
  stdout : ReadCloser;
  stderr : ReadCloser;
  path : string;
  pid : Z
}.

Definition set_cmd (c : t) (cmd' : exec.Cmd) : t :=
  mk cmd' (stdout c) (stderr c) (path c) (pid c).

(** [func NewCmdRunner(logger, cmd)].  Returns the caller's command object
    as the call leaves it, and the runner or the error. *)
Definition NewCmdRunner (outPipe errPipe : result ReadCloser) (cmd : exec.Cmd)
  : exec.Cmd * result t :=
  match exec.StdoutPipe outPipe cmd with
  | (cmd1, Err err) => (cmd1, Err err)
  | (cmd1, Ok stdout) =>
      match exec.StderrPipe errPipe cmd1 with
      | (cmd2, Err err) => (cmd2, Err err)
      | (cmd2, Ok stderr) =>
          (cmd2, Ok (mk cmd2 stdout stderr (exec.Path cmd2) 0%Z))
      end
  end.

(** [func (c *CmdRunner) Start() error] *)
Definition Start (spawn : result Z) (c : t) (w : World) : option error * t * World :=
  match exec.Start spawn (cmd c) w with
  | (cmd1, Some err, w1) => (Some err, set_cmd c cmd1, w1)
  | (cmd1, None, w1) =>
      let pid1 := match exec.Process cmd1 with Some p => p | None => pid c end in
      (None, mk cmd1 (stdout c) (stderr c) (path c) pid1, w1)
  end.

(** [func (c *CmdRunner) Wait() error] *)
Definition Wait (exit : option error) (c : t) (w : World) : option error * t * World :=
  let '(cmd1, err, w1) := exec.Wait exit (cmd c) w in
  (err, set_cmd c cmd1, w1).

(** [func (c *CmdRunner) Kill() error] *)
Definition Kill (answer : option error) (c : t) (w : World) : option error * t * World :=
  match exec.Process (cmd c) with
  | Some p =>
      let '(err, w1) := exec.ProcessKill answer p w in (err, c, w1)
  | None => (None, c, w)
  end.

Definition Stdout (c : t) : ReadCloser := stdout c.
Definition Stderr (c : t) : ReadCloser := stderr c.

Section ResolveAddr.

(** [net.ResolveTCPAddr] parses and looks up a host and a port; it is
    taken as given. *)
Variable ResolveTCPAddr : string -> string -> result net.TCPAddr.

(** [func (c *CmdRunner) ResolveAddr(network, address string) (net.Addr, error)] *)
Definition ResolveAddr (c : t) (network address : string) : result net.Addr :=
  if String.eqb network "tcp" then
    match ResolveTCPAddr "tcp" address with
    | Ok a => Ok (net.TCP a)
    | Err e => Err e
    end
  else if String.eqb network "unix" then
    net.ResolveUnixAddr "unix" address
  else
    Err (errorString ("Unknown address type: " ++ address)).

End ResolveAddr.

(** [func (c *CmdRunner) Name() string] *)
Definition Name (c : t) : string := path c.

(** [func (c *CmdRunner) ID() string] *)
Definition ID (c : t) : string := fmt_d (pid c).

(** What can happen to a runner after its construction: its own
    operations, with the answers of the operating system, and the caller
    editing the path of the command object it shares with the runner. *)
Inductive Op : Type :=
| OpStart (spawn : result Z)
| OpWait (exit : option error)
| OpKill (answer : option error)
| OpCallerSetsPath (p : string).

Definition step (o : Op) (st : t * World) : t * World :=
  let '(c, w) := st in
  match o with
  | OpStart spawn => let '(_, c1, w1) := Start spawn c w in (c1, w1)
  | OpWait exit => let '(_, c1, w1) := Wait exit c w in (c1, w1)
  | OpKill answer => let '(_, c1, w1) := Kill answer c w in (c1, w1)
  | OpCallerSetsPath p =>
      let k := cmd c in
      (set_cmd c (exec.mkCmd p (exec.Args k) (exec.Env k) (exec.StdoutSet k)
                             (exec.StderrSet k) (exec.Process k) (exec.waited k)), w)
  end.

Definition run (ops : list Op) (st : t * World) : t * World :=
  fold_left (fun st o => step o st) ops st.

End CmdRunner.

(** ** Engine API types *)

Module mount.

Inductive Type_ : Type := TypeBind | TypeVolume | TypeTmpfs | TypeNamedPipe | TypeCluster.

Inductive Propagation : Type :=
| PropagationRPrivate | PropagationPrivate
| PropagationRShared | PropagationShared
| PropagationRSlave | PropagationSlave.

Inductive Consistency : Type :=
| ConsistencyFull | ConsistencyCached | ConsistencyDelegated | ConsistencyDefault.

Record BindOptions : Type := mkBindOptions {
  BindPropagation : Propagation;
  NonRecursive : bool
}.

(** [mount.Mount]; the volume, tmpfs and cluster options stay [nil] in this
    package and are left out. *)
Record Mount : Type := mkMount {
  Type' : Type_;
  Source : string;
  Target : string;
  ReadOnly : bool;
  Consistency' : Consistency;
  BindOptions' : option BindOptions
}.

End mount.

Module container.

Record Config : Type := mkConfig {
  Image : string;
  Env : list string
}.

Record HostConfig : Type := mkHostConfig {
  Mounts : list mount.Mount
}.

(** [container.WaitResponse]: [Error] is [nil] or carries a message. *)
Record WaitResponse : Type := mkWaitResponse {
  WaitError : option string;
  StatusCode : Z
}.

End container.

Module config.

(** [config.ContainerConfig].  The three configurations are pointers; the
    fields hold what they point to. *)
Record ContainerConfig : Type := mkContainerConfig {
  UnixSocketGroup : Z;
  ContainerConfig' : container.Config;
  HostConfig : container.HostConfig
}.

End config.

Module constants.

(** Modelled from the spec: package [internal/constants] is not part of the
    sources at hand; the spec names the two environment variables
    [PLUGIN_UNIX_SOCKET_DIR] and [PLUGIN_UNIX_SOCKET_GROUP]. *)
Definition EnvUnixSocketDir : string := "PLUGIN_UNIX_SOCKET_DIR".
Definition EnvUnixSocketGroup : string := "PLUGIN_UNIX_SOCKET_GROUP".

End constants.

(** ** The container runner ([container_runner.go]) *)

Module ContainerRunner.

(** [type ContainerRunner struct].  [cmd] and [config] are pointers shared
    with the caller; the fields hold the current contents of those
    objects.  [stdout] and [stderr] are [nil] until [Start] has made the
    pipes.  The engine client's connection state lives in [World]. *)
Record t : Type := mk {
  cmd : exec.Cmd;
  config : config.ContainerConfig;
  hostSocketDir : string;
  stdout : option ReadCloser;
  stderr : option ReadCloser;
  image : string;
  id : string
}.

(** [const containerSocketDir = "/tmp"], local to [NewContainerRunner]. *)
Definition containerSocketDir : string := "/tmp".

(** The mount appended by [NewContainerRunner]. *)
Definition socketDirMount (hostSocketDir : string) : mount.Mount :=
  mount.mkMount mount.TypeBind hostSocketDir containerSocketDir false
    mount.ConsistencyDefault
    (Some (mount.mkBindOptions mount.PropagationRShared true)).

(** [func NewContainerRunner(logger, cmd, cfg, hostSocketDir)].
    [newClient] is the answer of [client.NewClientWithOpts]: the client is
    made, or the error.  Nothing is edited when it fails. *)
Definition NewContainerRunner (newClient : option error) (cmd : exec.Cmd)
    (cfg : config.ContainerConfig) (hostSocketDir : string) : result t :=
  match newClient with
  | Some err => Err err
  | None =>
      let mounts := container.Mounts (config.HostConfig cfg)
                    ++ [socketDirMount hostSocketDir] in
      let env1 := exec.Env cmd
                  ++ [(constants.EnvUnixSocketDir ++ "=" ++ containerSocketDir)%string] in
      let env2 :=
        if negb (Z.eqb (config.UnixSocketGroup cfg) 0)
        then env1 ++ [(constants.EnvUnixSocketGroup ++ "="
                       ++ fmt_d (config.UnixSocketGroup cfg))%string]
        else env1 in
      let cmd' := exec.mkCmd (exec.Path cmd) (exec.Args cmd) env2
                    (exec.StdoutSet cmd) (exec.StderrSet cmd)
                    (exec.Process cmd) (exec.waited cmd) in
      let cfg' := config.mkContainerConfig (config.UnixSocketGroup cfg)
                    (container.mkConfig
                       (container.Image (config.ContainerConfig' cfg)) env2)
                    (container.mkHostConfig mounts) in
      Ok (mk cmd' cfg' hostSocketDir None None
             (container.Image (config.ContainerConfig' cfg')) EmptyString)
  end.

Definition set_id (c : t) (id' : string) : t :=
  mk (cmd c) (config c) (hostSocketDir c) (stdout c) (stderr c) (image c) id'.

(** [func (c *ContainerRunner) Start() error].  [create], [start] and
    [logs] are the engine's answers to [ContainerCreate] (the id of the
    new container), [ContainerStart] and [ContainerLogs].  The goroutine
    that splits the log stream is recorded as spawned; what it copies is
    outside this model. *)
Definition Start (create : result string) (start : option error)
    (logs : option error) (c : t) (w : World) : option error * t * World :=
  let w1 := emit (EvContainerCreate (container.Image (config.ContainerConfig' (config c)))) w in
  match create with
  | Err err => (Some err, c, w1)
  | Ok respID =>
      let c1 := set_id c respID in
      let w2 := emit (EvContainerStart (id c1)) w1 in
      match start with
      | Some err => (Some err, c1, w2)
      | None =>
          let w3 := emit (EvContainerLogs (id c1)) w2 in
          match logs with
          | Some err => (Some err, c1, w3)
          | None =>
              let c2 := mk (cmd c1) (config c1) (hostSocketDir c1)
                           (Some (IoPipe (id c1) false))
                           (Some (IoPipe (id c1) true))
                           (image c1) (id c1) in
              (None, c2, emit (EvDemuxSpawned (id c1)) w3)
          end
      end
  end.

(** What the [select] of [Wait] receives first: a value from the error
    channel (possibly [nil]) or a status from the status channel. *)
Inductive WaitEvent : Type :=
| FromErrCh (err : option error)
| FromStatusCh (st : container.WaitResponse).

(** [func (c *ContainerRunner) Wait() error] *)
Definition Wait (ev : WaitEvent) (c : t) (w : World) : option error * t * World :=
  let w1 := emit (EvContainerWait (id c)) w in
  match ev with
  | FromErrCh (Some err) => (Some err, c, w1)
  | FromErrCh None => (None, c, w1)
  | FromStatusCh st =>
      match container.WaitError st with
      | Some message => (Some (errors_New message), c, w1)
      | None => (None, c, w1)
      end
  end.

(** [func (c *ContainerRunner) Kill() error].  The two deferred calls run
    after the body, last deferred first: [os.RemoveAll(c.hostSocketDir)],
    then [c.dockerClient.Close()].  [stop] is the engine's answer to
    [ContainerStop]. *)
Definition Kill (stop : option error) (c : t) (w : World) : option error * t * World :=
  let '(err, w1) :=
    if negb (String.eqb (id c) EmptyString)
    then (stop, emit (EvContainerStop (id c)) w)
    else (None, w) in
  (err, c, ClientClose (RemoveAll (hostSocketDir c) w1)).

Definition Stdout (c : t) : option ReadCloser := stdout c.
Definition Stderr (c : t) : option ReadCloser := stderr c.

(** The sentinel prefix of an address advertised from inside a container. *)
Definition sentinel : string := "PLUGIN_UNIX_SOCKET_DIR:".

(** [func (c *ContainerRunner) ResolveAddr(network, address string) (net.Addr, error)] *)
Definition ResolveAddr (c : t) (network address : string) : result net.Addr :=
  if String.eqb network "unix" then
    if negb (strings.HasPrefix address sentinel) then
      Err (errors_New "plugin is running inside container but needs an update to be compatible")
    else
      let address' := path.Join [hostSocketDir c; strings.TrimPrefix address sentinel] in
      net.ResolveUnixAddr "unix" address'
  else
    Err (errorString ("unsupported address: " ++ network ++ ", " ++ address)).

(** [func (c *ContainerRunner) Name() string] *)
Definition Name (c : t) : string := image c.

(** [func (c *ContainerRunner) ID() string] *)
Definition ID (c : t) : string := id c.

(** The operations of a runner after its construction, with the answers
    of the engine, and the caller editing the image of the configuration
    object it shares with the runner. *)
Inductive Op : Type :=
| OpStart (create : result string) (start logs : option error)
| OpWait (ev : WaitEvent)
| OpKill (stop : option error)
| OpCallerSetsImage (img : string).

Definition step (o : Op) (st : t * World) : t * World :=
  let '(c, w) := st in
  match o with
  | OpStart create start logs => let '(_, c1, w1) := Start create start logs c w in (c1, w1)
  | OpWait ev => let '(_, c1, w1) := Wait ev c w in (c1, w1)
  | OpKill stop => let '(_, c1, w1) := Kill stop c w in (c1, w1)
  | OpCallerSetsImage img =>
      let k := config c in
      (mk (cmd c)
          (config.mkContainerConfig (config.UnixSocketGroup k)
             (container.mkConfig img (container.Env (config.ContainerConfig' k)))
             (config.HostConfig k))
          (hostSocketDir c) (stdout c) (stderr c) (image c) (id c), w)
  end.

Definition run (ops : list Op) (st : t * World) : t * World :=
  fold_left (fun st o => step o st) ops st.

End ContainerRunner.

(** ** Notions used by the statements *)

Fixpoint has_slash (s : string) : bool :=
  match s with
  | EmptyString => false
  | String c s' => path.is_slash c || has_slash s'
  end.

(** A base name relative to the container directory: one path element,
    neither empty nor [.] nor [..]. *)
Definition valid_basename (b : string) : bool :=
  negb (String.eqb b EmptyString) && negb (has_slash b)
  && negb (String.eqb b ".") && negb (String.eqb b "..").

(** A host directory in the form [path.Clean] leaves alone, the root and
    the current directory apart: joining a base name onto those two does
    not keep them as a literal prefix followed by a slash. *)
Definition clean_dir (dir : string) : bool :=
  String.eqb (path.Clean dir) dir
  && negb (String.eqb dir "/") && negb (String.eqb dir ".").

(** The three parts of what an operation returns. *)
Definition error_of {R W : Type} (x : option error * R * W) : option error := fst (fst x).
Definition runner_of {R W : Type} (x : option error * R * W) : R := snd (fst x).
Definition world_of {R W : Type} (x : option error * R * W) : W := snd x.

(** ** Sample objects for the concrete checks *)

Definition sample_cmd : exec.Cmd :=
  exec.mkCmd "/bin/sh" ["/bin/sh"; "-c"; "echo hello"] ["HOME=/root"]
             false false None false.

Definition sample_cfg (group : Z) : config.ContainerConfig :=
  config.mkContainerConfig group
    (container.mkConfig "plugin-image:latest" [])
    (container.mkHostConfig []).

(** A container runner as [NewContainerRunner] leaves it, on the given
    host directory. *)
Definition sample_container (hostSocketDir : string) : ContainerRunner.t :=
  let cfg := sample_cfg 0 in
  ContainerRunner.mk
    (exec.mkCmd "/bin/sh" ["/bin/sh"; "-c"; "echo hello"]
                ["HOME=/root"; "PLUGIN_UNIX_SOCKET_DIR=/tmp"] false false None false)
    (config.mkContainerConfig 0
       (container.mkConfig "plugin-image:latest"
                           ["HOME=/root"; "PLUGIN_UNIX_SOCKET_DIR=/tmp"])
       (container.mkHostConfig [ContainerRunner.socketDirMount hostSocketDir]))
    hostSocketDir None None "plugin-image:latest" EmptyString.

(** A local runner as [NewCmdRunner] leaves it. *)
Definition sample_local : CmdRunner.t :=
  CmdRunner.mk (exec.mkCmd "/bin/sh" ["/bin/sh"; "-c"; "echo hello"] ["HOME=/root"]
                           true true None false)
               (CmdPipe 3) (CmdPipe 5) "/bin/sh" 0%Z.

(** The container runner after a [Start] for which the engine answered
    with the id [3f4e8a] and no error. *)
Definition sample_started : ContainerRunner.t :=
  ContainerRunner.mk (ContainerRunner.cmd (sample_container "/tmp/abc"))
    (ContainerRunner.config (sample_container "/tmp/abc"))
    "/tmp/abc" (Some (IoPipe "3f4e8a" false)) (Some (IoPipe "3f4e8a" true))
    "plugin-image:latest" "3f4e8a".

(** The local runner after a [Start] that spawned process 4242. *)
Definition sample_spawned : CmdRunner.t :=
  CmdRunner.mk (exec.mkCmd "/bin/sh" ["/bin/sh"; "-c"; "echo hello"] ["HOME=/root"]
                           true true (Some 4242%Z) false)
               (CmdPipe 3) (CmdPipe 5) "/bin/sh" 4242%Z.

(** A world in which the host directory [/tmp/abc] exists and the engine
    client is connected. *)
Definition sample_world : World :=
  mkWorld ["/tmp/abc"; "/tmp/abc/plugin.sock"; "/tmp/other"] true [].

(** A resolver that knows one address. *)
Definition sample_resolver (network address : string) : result net.TCPAddr :=
  if String.eqb address "127.0.0.1:1234"
  then Ok (net.mkTCPAddr [127; 0; 0; 1]%Z 1234%Z EmptyString)
  else Err (ExternalError "missing port in address").

(** The message of the error for an address without the sentinel. *)
Definition incompatible : error :=
  errors_New "plugin is running inside container but needs an update to be compatible".

(** ** Notions used by the further properties *)

(** [s] has a path element [..]; [at_start] says that [s] begins at the
    start of an element. *)
Fixpoint dotdot_at (at_start : bool) (s : string) : bool :=
  match s with
  | EmptyString => false
  | String c s' =>
      (at_start && path.is_dot c
       && match s' with
          | String c1 s2 => path.is_dot c1 && path.end_or_slash s2
          | EmptyString => false
          end)
      || dotdot_at (path.is_slash c) s'
  end.

Definition has_dotdot_element (s : string) : bool := dotdot_at true s.

(** The first path element of [s], up to its first slash, and what is
    left of [s] from that slash on. *)
Fixpoint take_element (s : string) : string :=
  match s with
  | EmptyString => EmptyString
  | String c s' => if path.is_slash c then EmptyString else String c (take_element s')
  end.

Fixpoint drop_element (s : string) : string :=
  match s with
  | EmptyString => EmptyString
  | String c s' => if path.is_slash c then s else drop_element s'
  end.

(** The states [(out, dotdot)] that the loop of [path.Clean] can be in:
    the state it starts in, and those that come from one of them by
    writing a [..] element when nothing can be taken back, or by writing
    a real element. *)
Inductive reach (rooted : bool) : path.lazybuf -> nat -> Prop :=
| reach_init :
    reach rooted (if rooted then ["/"%char] else []) (if rooted then 1 else 0)
| reach_dotdot (out : path.lazybuf) (dd : nat) :
    rooted = false -> reach rooted out dd -> List.length out <= dd ->
    reach rooted
      ("."%char :: "."%char
       :: (if (0 <? List.length out)%nat then "/"%char :: out else out))
      (S (S (List.length (if (0 <? List.length out)%nat then "/"%char :: out else out))))
| reach_element (out : path.lazybuf) (dd : nat) (el : string) :
    reach rooted out dd -> valid_basename el = true ->
    reach rooted
      (rev (list_ascii_of_string el)
       ++ (if (rooted && negb (List.length out =? 1)%nat)
              || (negb rooted && negb (List.length out =? 0)%nat)
           then "/"%char :: out else out))
      dd.

Definition is_kill (o : ContainerRunner.Op) : bool :=
  match o with
  | ContainerRunner.OpKill _ => true
  | _ => false
  end.

(** * Properties *)

(** ** Strings *)

Lemma length_append (s1 s2 : string) :
  String.length (s1 ++ s2) = String.length s1 + String.length s2.
Proof. induction s1 as [|c s1 IH]; simpl; [reflexivity | now rewrite IH]. Qed.

Lemma append_nil_r (s : string) : (s ++ EmptyString)%string = s.
Proof. induction s as [|c s IH]; simpl; [reflexivity | now rewrite IH]. Qed.

Lemma append_assoc (s1 s2 s3 : string) :
  ((s1 ++ s2) ++ s3)%string = (s1 ++ (s2 ++ s3))%string.
Proof. induction s1 as [|c s1 IH]; simpl; [reflexivity | now rewrite IH]. Qed.

Lemma substring_0_all (s : string) : substring 0 (String.length s) s = s.
Proof. induction s as [|c s IH]; simpl; [reflexivity | now rewrite IH]. Qed.

Lemma substring_0_append (p s : string) :
  substring 0 (String.length p) (p ++ s) = p.
Proof.
  induction p as [|c p IH]; simpl.
  - destruct s; reflexivity.
  - now rewrite IH.
Qed.

Lemma substring_skip_append (p s : string) (m : nat) :
  substring (String.length p) m (p ++ s) = substring 0 m s.
Proof. induction p as [|c p IH]; simpl; [reflexivity | exact IH]. Qed.

Lemma HasPrefix_append (p s : string) : strings.HasPrefix (p ++ s) p = true.
Proof.
  unfold strings.HasPrefix.
  rewrite length_append, substring_0_append, String.eqb_refl, andb_true_r.
  apply Nat.leb_le; lia.
Qed.

Lemma TrimPrefix_append (p s : string) : strings.TrimPrefix (p ++ s) p = s.
Proof.
  unfold strings.TrimPrefix.
  rewrite HasPrefix_append, substring_skip_append, length_append.
  replace (String.length p + String.length s - String.length p)
    with (String.length s) by lia.
  apply substring_0_all.
Qed.

(** A string with the prefix is the prefix followed by what [TrimPrefix]
    leaves. *)
Lemma HasPrefix_split (s p : string) :
  strings.HasPrefix s p = true -> s = (p ++ strings.TrimPrefix s p)%string.
Proof.
  intros H. unfold strings.TrimPrefix. rewrite H.
  unfold strings.HasPrefix in H. apply andb_true_iff in H as [Hlen Heq].
  apply Nat.leb_le in Hlen. apply String.eqb_eq in Heq.
  revert p Hlen Heq. induction s as [|c s IH]; intros [|d p] Hlen Heq; simpl in *;
    try reflexivity; try lia.
  - rewrite substring_0_all. reflexivity.
  - injection Heq as -> Heq. f_equal. apply IH; [lia | exact Heq].
Qed.

Lemma string_of_list_ascii_app (l1 l2 : list ascii) :
  string_of_list_ascii (l1 ++ l2)
  = (string_of_list_ascii l1 ++ string_of_list_ascii l2)%string.
Proof. induction l1 as [|c l1 IH]; simpl; [reflexivity | now rewrite IH]. Qed.

Lemma length_string_of_list_ascii (l : list ascii) :
  String.length (string_of_list_ascii l) = List.length l.
Proof. induction l as [|c l IH]; simpl; [reflexivity | now rewrite IH]. Qed.


(** ** [path.Clean] *)

Import path.

(** The cases of the table that Go's own test of [Clean] runs. *)
Example Clean_table :
  map Clean
    [EmptyString; "abc"; "abc/def"; "a/b/c"; "."; ".."; "../.."; "../../abc";
     "/abc"; "/"; "abc/"; "abc/def/"; "a/b/c/"; "./"; "../"; "../../"; "/abc/";
     "abc//def//ghi"; "//abc"; "///abc"; "//abc//"; "abc//";
     "abc/./def"; "/./abc/def"; "abc/.";
     "abc/def/ghi/../jkl"; "abc/def/../ghi/../jkl"; "abc/def/.."; "abc/def/../..";
     "/abc/def/../.."; "abc/def/../../.."; "/abc/def/../../..";
     "abc/def/../../../ghi/jkl/../../../mno";
     "abc/./../def"; "abc//./../def"; "abc/../../././../def"]
  = ["."; "abc"; "abc/def"; "a/b/c"; "."; ".."; "../.."; "../../abc";
     "/abc"; "/"; "abc"; "abc/def"; "a/b/c"; "."; ".."; "../.."; "/abc";
     "abc/def/ghi"; "/abc"; "/abc"; "/abc"; "abc";
     "abc/def"; "/abc/def"; "abc";
     "abc/def/jkl"; "abc/jkl"; "abc"; ".";
     "/"; ".."; "/";
     "../../mno";
     "def"; "def"; "../../def"].
Proof. vm_compute. reflexivity. Qed.

Example Join_table :
  map Join
    [[]; [EmptyString]; ["a"]; ["a"; "b"]; ["a"; EmptyString]; [EmptyString; "b"];
     ["/"; "a"]; ["/"; EmptyString]; ["a/"; "b"]; ["a/"; EmptyString];
     [EmptyString; EmptyString]]
  = [EmptyString; EmptyString; "a"; "a/b"; "a"; "b"; "/a"; "/"; "a/b"; "a";
     EmptyString].
Proof. vm_compute. reflexivity. Qed.

Lemma copy_element_length (rest : string) (out : lazybuf) :
  String.length (fst (copy_element rest out)) <= String.length rest.
Proof.
  revert out. induction rest as [|c rest IH]; intros out; simpl.
  - lia.
  - destruct (is_slash c); simpl; [lia | specialize (IH (c :: out)); lia].
Qed.

(** Any fuel that covers the unread input gives the same result. *)
Lemma clean_loop_fuel (rooted : bool) (f1 : nat) :
  forall f2 rest out dotdot,
    String.length rest <= f1 -> String.length rest <= f2 ->
    clean_loop f1 rooted rest out dotdot = clean_loop f2 rooted rest out dotdot.
Proof.
  induction f1 as [|f1 IH]; intros f2 rest out dotdot H1 H2.
  - destruct rest; simpl in H1; [|lia]. destruct f2; reflexivity.
  - destruct rest as [|c rest1]; [destruct f2; reflexivity|].
    destruct f2 as [|f2]; [simpl in H2; lia|].
    simpl in H1, H2. cbn [clean_loop].
    destruct (is_slash c) eqn:Hs; [apply IH; lia|].
    destruct (is_dot c && end_or_slash rest1); [apply IH; lia|].
    destruct rest1 as [|c1 rest2].
    + rewrite andb_false_r. simpl. rewrite Hs. apply IH; simpl; lia.
    + destruct (is_dot c && (is_dot c1 && end_or_slash rest2)).
      * simpl in H1, H2.
        destruct (dotdot <? List.length out)%nat; [apply IH; lia|].
        destruct (negb rooted); apply IH; lia.
      * match goal with
        | |- context [copy_element ?r ?o] =>
            pose proof (copy_element_length r o) as Hl;
            assert (Hc : copy_element r o
                         = copy_element (String c1 rest2) (c :: o))
              by (simpl; rewrite Hs; reflexivity);
            destruct (copy_element r o) as [rest' out2] eqn:E
        end.
        pose proof (copy_element_length (String c1 rest2)
                      (c :: (if (rooted && negb (List.length out =? 1)%nat)
                                || (negb rooted && negb (List.length out =? 0)%nat)
                             then "/"%char :: out else out))) as Hl2.
        rewrite <- Hc in Hl2. simpl in Hl2. simpl in H1, H2.
        apply IH; lia.
Qed.

Lemma clean_loop_run (rooted : bool) (fuel : nat) (rest : string)
    (out : lazybuf) (dotdot : nat) :
  String.length rest <= fuel ->
  clean_loop fuel rooted rest out dotdot = clean_run rooted rest out dotdot.
Proof. intros H. apply clean_loop_fuel; [exact H | lia]. Qed.

(** One turn of the loop, free of fuel. *)
Lemma clean_run_unfold (rooted : bool) (c : ascii) (rest1 : string)
    (out : lazybuf) (dotdot : nat) :
  clean_run rooted (String c rest1) out dotdot =
  if is_slash c then clean_run rooted rest1 out dotdot
  else if is_dot c && end_or_slash rest1 then clean_run rooted rest1 out dotdot
  else if is_dot c
          && match rest1 with
             | String c1 rest2 => is_dot c1 && end_or_slash rest2
             | EmptyString => false
             end then
    let rest2 := match rest1 with
                 | String _ rest2 => rest2
                 | EmptyString => EmptyString
                 end in
    if (dotdot <? List.length out)%nat then
      clean_run rooted rest2 (backtrack dotdot out) dotdot
    else if negb rooted then
      let out1 := if (0 <? List.length out)%nat then "/"%char :: out else out in
      let out2 := "."%char :: "."%char :: out1 in
      clean_run rooted rest2 out2 (List.length out2)
    else clean_run rooted rest2 out dotdot
  else
    let out1 :=
      if (rooted && negb (List.length out =? 1)%nat)
         || (negb rooted && negb (List.length out =? 0)%nat)
      then "/"%char :: out else out in
    let '(rest', out2) := copy_element (String c rest1) out1 in
    clean_run rooted rest' out2 dotdot.
Proof.
  unfold clean_run at 1. cbn [String.length clean_loop].
  destruct (is_slash c) eqn:Hs; [apply clean_loop_run; lia|].
  destruct (is_dot c && end_or_slash rest1); [apply clean_loop_run; lia|].
  destruct (is_dot c && match rest1 with
                        | String c1 rest2 => is_dot c1 && end_or_slash rest2
                        | EmptyString => false
                        end) eqn:Hdd.
  - destruct rest1 as [|c1 rest2]; [rewrite andb_false_r in Hdd; discriminate|].
    cbn zeta. cbn [String.length].
    destruct (dotdot <? List.length out)%nat; [apply clean_loop_run; lia|].
    destruct (negb rooted); apply clean_loop_run; lia.
  - cbn zeta.
    match goal with
    | |- context [copy_element ?r ?o] =>
        pose proof (copy_element_length rest1 (c :: o)) as Hl;
        assert (Hc : copy_element r o = copy_element rest1 (c :: o))
          by (simpl; rewrite Hs; reflexivity);
        rewrite Hc in *;
        destruct (copy_element rest1 (c :: o)) as [rest' out2]
    end.
    simpl in Hl. apply clean_loop_run; lia.
Qed.

Lemma clean_run_nil (rooted : bool) (out : lazybuf) (dotdot : nat) :
  clean_run rooted EmptyString out dotdot = (out, dotdot).
Proof. reflexivity. Qed.

Lemma end_or_slash_app (rest tail : string) :
  end_or_slash (rest ++ String "/" tail) = end_or_slash rest.
Proof. destruct rest; reflexivity. Qed.

Lemma copy_element_app (rest tail : string) (out : lazybuf) :
  copy_element (rest ++ String "/" tail) out
  = ((fst (copy_element rest out) ++ String "/" tail)%string,
     snd (copy_element rest out)).
Proof.
  revert out. induction rest as [|c rest IH]; intros out; simpl.
  - reflexivity.
  - destruct (is_slash c); [reflexivity | apply IH].
Qed.

(** Reading [rest] and then a slash and [tail] is reading [rest] to its
    end and going on from the state reached: the loop looks ahead only to
    ask whether an element ends, and an element ends at a slash as it does
    at the end of the input. *)
Lemma clean_run_app (rooted : bool) (tail : string) (n : nat) :
  forall rest out dotdot,
    String.length rest <= n ->
    clean_run rooted (rest ++ String "/" tail) out dotdot
    = clean_run rooted (String "/" tail)
        (fst (clean_run rooted rest out dotdot))
        (snd (clean_run rooted rest out dotdot)).
Proof.
  induction n as [|n IH]; intros rest out dotdot Hlen.
  - destruct rest; [reflexivity | simpl in Hlen; lia].
  - destruct rest as [|c rest1]; [reflexivity|].
    simpl in Hlen. cbn [append].
    rewrite (clean_run_unfold rooted c rest1), (clean_run_unfold rooted c (rest1 ++ _)).
    rewrite end_or_slash_app.
    destruct (is_slash c) eqn:Hs; [apply IH; lia|].
    destruct (is_dot c && end_or_slash rest1); [apply IH; lia|].
    destruct rest1 as [|c1 rest2].
    + cbn [append]. rewrite !andb_false_r.
      replace (is_dot c && (is_dot "/" && end_or_slash tail)) with false
        by (rewrite andb_false_r; reflexivity).
      cbn zeta. simpl copy_element. rewrite Hs. simpl copy_element.
      rewrite clean_run_nil. reflexivity.
    + cbn [append]. rewrite end_or_slash_app.
      destruct (is_dot c && (is_dot c1 && end_or_slash rest2)).
      * cbn zeta. simpl in Hlen.
        destruct (dotdot <? List.length out)%nat; [apply IH; lia|].
        destruct (negb rooted); apply IH; lia.
      * cbn zeta.
        change (String c (String c1 (rest2 ++ String "/" tail)))
          with ((String c (String c1 rest2)) ++ String "/" tail)%string.
        rewrite copy_element_app.
        match goal with
        | |- context [copy_element ?r ?o] =>
            pose proof (copy_element_length (String c1 rest2) (c :: o)) as Hl;
            assert (Hc : copy_element r o = copy_element (String c1 rest2) (c :: o))
              by (simpl; rewrite Hs; reflexivity);
            rewrite Hc in *;
            destruct (copy_element (String c1 rest2) (c :: o)) as [rest' out2]
        end.
        cbn [fst snd] in *. simpl in Hlen, Hl. apply IH. lia.
Qed.

(** [Clean] in terms of the state its loop ends in. *)
Lemma Clean_state (p : string) :
  p <> EmptyString ->
  Clean p = match fst (clean_state p) with
            | [] => "."
            | out => lazybuf_string out
            end.
Proof.
  destruct p as [|c0 rest0]; [congruence|]. intros _.
  unfold Clean, clean_state.
  destruct (is_slash c0) eqn:Hs.
  - rewrite clean_loop_run by (simpl; lia).
    destruct (clean_run true rest0 ["/"%char] 1) as [[|a out] dd]; reflexivity.
  - rewrite clean_loop_run by (simpl; lia).
    destruct (clean_run false (String c0 rest0) [] 0) as [[|a out] dd]; reflexivity.
Qed.

Lemma clean_run_skip_slash (rooted : bool) (tail : string) (out : lazybuf) (dd : nat) :
  clean_run rooted (String "/" tail) out dd = clean_run rooted tail out dd.
Proof. rewrite clean_run_unfold. reflexivity. Qed.

Lemma is_rooted_app (h t : string) :
  h <> EmptyString -> is_rooted (h ++ t) = is_rooted h.
Proof. destruct h; [congruence | reflexivity]. Qed.

(** The loop on [h/tail] goes on with [tail] from the state it reaches at
    the end of [h]. *)
Lemma clean_state_app (h tail : string) :
  h <> EmptyString ->
  clean_state (h ++ String "/" tail)
  = clean_run (is_rooted h) tail (fst (clean_state h)) (snd (clean_state h)).
Proof.
  destruct h as [|c0 h0]; [congruence|]. intros _.
  cbn [append clean_state is_rooted].
  destruct (is_slash c0) eqn:Hs.
  - rewrite (clean_run_app true tail (String.length h0)) by lia.
    apply clean_run_skip_slash.
  - change (String c0 (h0 ++ String "/" tail))
      with (String c0 h0 ++ String "/" tail)%string.
    rewrite (clean_run_app false tail (String.length (String c0 h0))) by lia.
    apply clean_run_skip_slash.
Qed.

Lemma app_slash_nonempty (h tail : string) :
  (h ++ String "/" tail)%string <> EmptyString.
Proof. destruct h; discriminate. Qed.

(** A trailing slash changes nothing. *)
Lemma Clean_trailing_slash (h : string) :
  h <> EmptyString -> Clean (h ++ "/") = Clean h.
Proof.
  intros Hh. rewrite (Clean_state (h ++ "/")) by apply app_slash_nonempty.
  rewrite (Clean_state h) by exact Hh.
  rewrite clean_state_app by exact Hh. rewrite clean_run_nil. reflexivity.
Qed.

(** Two slashes in a row count as one. *)
Lemma Clean_double_slash (p q : string) :
  Clean (p ++ "//" ++ q) = Clean (p ++ "/" ++ q).
Proof.
  destruct p as [|c0 p0].
  - unfold Clean. cbn [append is_slash Ascii.eqb Bool.eqb String.length].
    rewrite !clean_loop_run by (simpl; lia).
    rewrite clean_run_skip_slash. reflexivity.
  - set (p := String c0 p0). assert (Hp : p <> EmptyString) by discriminate.
    change ("//" ++ q)%string with (String "/" (String "/" q)).
    change ("/" ++ q)%string with (String "/" q).
    rewrite !Clean_state by apply app_slash_nonempty.
    rewrite !clean_state_app by exact Hp.
    rewrite clean_run_skip_slash. reflexivity.
Qed.

(** A [.] element counts for nothing. *)
Lemma Clean_dot_element (p q : string) :
  Clean (p ++ "/./" ++ q) = Clean (p ++ "/" ++ q).
Proof.
  assert (Hdot : forall rooted out dd,
             clean_run rooted (String "." (String "/" q)) out dd
             = clean_run rooted q out dd).
  { intros. rewrite clean_run_unfold. cbn [is_slash is_dot Ascii.eqb Bool.eqb
      end_or_slash andb]. apply clean_run_skip_slash. }
  destruct p as [|c0 p0].
  - unfold Clean. cbn [append is_slash Ascii.eqb Bool.eqb String.length].
    rewrite !clean_loop_run by (simpl; lia).
    rewrite Hdot. reflexivity.
  - set (p := String c0 p0). assert (Hp : p <> EmptyString) by discriminate.
    change ("/./" ++ q)%string with (String "/" (String "." (String "/" q))).
    change ("/" ++ q)%string with (String "/" q).
    rewrite !Clean_state by apply app_slash_nonempty.
    rewrite !clean_state_app by exact Hp.
    rewrite Hdot. reflexivity.
Qed.

Lemma copy_element_no_slash (b : string) (out : lazybuf) :
  has_slash b = false ->
  copy_element b out = (EmptyString, rev (list_ascii_of_string b) ++ out).
Proof.
  revert out. induction b as [|c b IH]; intros out H; simpl in *.
  - reflexivity.
  - apply orb_false_iff in H as [Hc Hb]. rewrite Hc, IH by exact Hb.
    rewrite <- app_assoc. reflexivity.
Qed.

Lemma is_dot_eq (c : ascii) : is_dot c = true -> c = "."%char.
Proof. apply Ascii.eqb_eq. Qed.

(** A valid base name is read by the loop as one real path element. *)
Lemma clean_run_basename (rooted : bool) (b : string) (out : lazybuf) (dd : nat) :
  valid_basename b = true ->
  (rooted && negb (List.length out =? 1)%nat)
  || (negb rooted && negb (List.length out =? 0)%nat) = true ->
  fst (clean_run rooted b out dd)
  = rev (list_ascii_of_string b) ++ "/"%char :: out.
Proof.
  unfold valid_basename. intros Hv Hsl.
  apply andb_true_iff in Hv as [Hv Hdd]. apply andb_true_iff in Hv as [Hv Hd].
  apply andb_true_iff in Hv as [Hne Hns].
  apply negb_true_iff in Hns, Hd, Hdd.
  destruct b as [|c b1]; [discriminate|].
  rewrite clean_run_unfold.
  assert (Hc : is_slash c = false) by (simpl in Hns; now apply orb_false_iff in Hns).
  rewrite Hc.
  assert (H1 : is_dot c && end_or_slash b1 = false).
  { destruct (is_dot c) eqn:E; [|reflexivity]. apply is_dot_eq in E. subst c.
    destruct b1 as [|c1 b2]; [discriminate|]. simpl in *.
    apply orb_false_iff in Hns as [H _]. exact H. }
  rewrite H1.
  assert (H2 : is_dot c && match b1 with
                           | String c1 rest2 => is_dot c1 && end_or_slash rest2
                           | EmptyString => false
                           end = false).
  { destruct (is_dot c) eqn:E; [|reflexivity]. apply is_dot_eq in E. subst c.
    destruct b1 as [|c1 b2]; [reflexivity|].
    destruct (is_dot c1) eqn:E1; [|reflexivity]. apply is_dot_eq in E1. subst c1.
    destruct b2 as [|c2 b3]; [discriminate|]. simpl in *.
    apply orb_false_iff in Hns as [H _]. exact H. }
  rewrite H2. cbn zeta. rewrite Hsl.
  rewrite copy_element_no_slash by exact Hns.
  rewrite clean_run_nil. reflexivity.
Qed.

Lemma lazybuf_string_elem (b : string) (out : lazybuf) :
  lazybuf_string (rev (list_ascii_of_string b) ++ "/"%char :: out)
  = (lazybuf_string out ++ "/" ++ b)%string.
Proof.
  unfold lazybuf_string.
  rewrite rev_app_distr, rev_involutive. cbn [rev].
  rewrite <- app_assoc. rewrite string_of_list_ascii_app. cbn [app].
  cbn [string_of_list_ascii]. rewrite string_of_list_ascii_of_string.
  reflexivity.
Qed.

(** What [clean_dir] says about the state the loop ends in. *)
Lemma clean_dir_state (h : string) :
  clean_dir h = true ->
  h <> EmptyString
  /\ lazybuf_string (fst (clean_state h)) = h
  /\ (is_rooted h && negb (List.length (fst (clean_state h)) =? 1)%nat)
     || (negb (is_rooted h) && negb (List.length (fst (clean_state h)) =? 0)%nat)
     = true.
Proof.
  unfold clean_dir. intros H.
  apply andb_true_iff in H as [H Hdot]. apply andb_true_iff in H as [Hc Hroot].
  apply String.eqb_eq in Hc. apply negb_true_iff in Hroot, Hdot.
  apply String.eqb_neq in Hroot, Hdot.
  assert (Hne : h <> EmptyString) by (intros ->; discriminate).
  rewrite Clean_state in Hc by exact Hne.
  destruct (fst (clean_state h)) as [|a out] eqn:E; [congruence|].
  split; [exact Hne|]. split; [exact Hc|].
  destruct (is_rooted h) eqn:Hr; cbn [andb negb orb]; [|reflexivity].
  rewrite orb_false_r. apply negb_true_iff. apply Nat.eqb_neq. intros Hlen.
  destruct out; [|discriminate]. unfold lazybuf_string in Hc. simpl in Hc.
  subst h. simpl in Hr. unfold is_slash in Hr. apply Ascii.eqb_eq in Hr.
  subst a. congruence.
Qed.

(** Cleaning a clean directory followed by a valid base name is the
    literal concatenation. *)
Lemma Clean_dir_basename (h b : string) :
  clean_dir h = true -> valid_basename b = true ->
  Clean (h ++ "/" ++ b) = (h ++ "/" ++ b)%string.
Proof.
  intros Hh Hb. destruct (clean_dir_state h Hh) as (Hne & Hstr & Hsl).
  change ("/" ++ b)%string with (String "/" b).
  rewrite Clean_state by apply app_slash_nonempty.
  rewrite clean_state_app by exact Hne.
  rewrite (clean_run_basename _ b _ _ Hb Hsl).
  destruct (rev (list_ascii_of_string b) ++ "/"%char :: fst (clean_state h)) eqn:E.
  - apply (f_equal (@List.length ascii)) in E. rewrite length_app in E.
    simpl in E. lia.
  - rewrite <- E, lazybuf_string_elem, Hstr. reflexivity.
Qed.

(** ** [path.Join] of two elements *)

Lemma Join_two (h r : string) :
  h <> EmptyString -> Join [h; r] = Clean (h ++ "/" ++ r).
Proof.
  intros Hh. unfold Join. cbn [fold_left join_buf String.length].
  destruct h as [|c h0]; [congruence|].
  cbn [String.length Nat.add Nat.eqb Nat.ltb Nat.leb orb negb String.eqb append].
  rewrite append_assoc. reflexivity.
Qed.

Lemma Join_nil_l (r : string) :
  Join [EmptyString; r] = if String.eqb r EmptyString then EmptyString else Clean r.
Proof.
  unfold Join. cbn [fold_left join_buf String.length Nat.add].
  destruct r as [|c r0]; reflexivity.
Qed.

(** ** The samples are what the constructors build *)

Example sample_container_built (dir : string) :
  ContainerRunner.NewContainerRunner None sample_cmd (sample_cfg 0) dir
  = Ok (sample_container dir).
Proof. reflexivity. Qed.

Example sample_local_built :
  CmdRunner.NewCmdRunner (Ok (CmdPipe 3)) (Ok (CmdPipe 5)) sample_cmd
  = (CmdRunner.cmd sample_local, Ok sample_local).
Proof. reflexivity. Qed.

(** ** Address resolution of the container runner *)

Lemma ResolveAddr_sentinel (c : ContainerRunner.t) (r : string) :
  ContainerRunner.ResolveAddr c "unix" (ContainerRunner.sentinel ++ r)
  = Ok (net.UnixAddr (Join [ContainerRunner.hostSocketDir c; r]) "unix").
Proof.
  unfold ContainerRunner.ResolveAddr. cbn [String.eqb Ascii.eqb Bool.eqb].
  rewrite HasPrefix_append, TrimPrefix_append. reflexivity.
Qed.

(** C1, as the code has it: for a host rendezvous directory in clean form
    (other than the root and the current directory) and a valid base name
    [b], resolving the sentinel followed by [b] on network unix succeeds
    with the Unix address whose path is the host directory, a slash, and
    [b]. *)
Theorem ResolveAddr_basename (c : ContainerRunner.t) (b : string) :
  clean_dir (ContainerRunner.hostSocketDir c) = true ->
  valid_basename b = true ->
  ContainerRunner.ResolveAddr c "unix" ("PLUGIN_UNIX_SOCKET_DIR:" ++ b)
  = Ok (net.UnixAddr (ContainerRunner.hostSocketDir c ++ "/" ++ b) "unix").
Proof.
  intros Hdir Hb.
  change "PLUGIN_UNIX_SOCKET_DIR:" with ContainerRunner.sentinel.
  rewrite ResolveAddr_sentinel.
  rewrite Join_two by (apply (clean_dir_state _ Hdir)).
  rewrite Clean_dir_basename by assumption. reflexivity.
Qed.

Lemma ResolveAddr_basename_witness :
  ContainerRunner.ResolveAddr (sample_container "/tmp/abc") "unix"
    "PLUGIN_UNIX_SOCKET_DIR:plugin.sock"
  = Ok (net.UnixAddr "/tmp/abc/plugin.sock" "unix").
Proof.
  exact (ResolveAddr_basename (sample_container "/tmp/abc") "plugin.sock"
           eq_refl eq_refl).
Defined.

(** C1 as stated fails when the host directory is not in clean form: with
    the host directory [/tmp/abc/] the resolved path has one slash where
    the concatenation has two. *)
Lemma unclean_host_dir_breaks_concatenation :
  valid_basename "plugin.sock" = true
  /\ ContainerRunner.ResolveAddr (sample_container "/tmp/abc/") "unix"
       ("PLUGIN_UNIX_SOCKET_DIR:" ++ "plugin.sock")
     = Ok (net.UnixAddr "/tmp/abc/plugin.sock" "unix")
  /\ ContainerRunner.ResolveAddr (sample_container "/tmp/abc/") "unix"
       ("PLUGIN_UNIX_SOCKET_DIR:" ++ "plugin.sock")
     <> Ok (net.UnixAddr
              (ContainerRunner.hostSocketDir (sample_container "/tmp/abc/")
               ++ "/" ++ "plugin.sock") "unix").
Proof. repeat split; try reflexivity. vm_compute. discriminate. Qed.

(** C3: [ResolveAddr] of the container runner fails exactly when the
    network is not unix or the address lacks the sentinel prefix; on
    network unix an address without the prefix gets the error whose
    message says that the plugin needs an update to be compatible, and one
    with the prefix gets a Unix address. *)
Theorem ResolveAddr_error_iff (c : ContainerRunner.t) (network address : string) :
  (is_err (ContainerRunner.ResolveAddr c network address) = true
   <-> (network <> "unix"
        \/ strings.HasPrefix address "PLUGIN_UNIX_SOCKET_DIR:" = false))
  /\ ContainerRunner.ResolveAddr c "unix" address
     = (if strings.HasPrefix address "PLUGIN_UNIX_SOCKET_DIR:"
        then Ok (net.UnixAddr
                   (Join [ContainerRunner.hostSocketDir c;
                          strings.TrimPrefix address "PLUGIN_UNIX_SOCKET_DIR:"])
                   "unix")
        else Err incompatible)
  /\ strings.Contains (Error incompatible) "needs an update to be compatible" = true.
Proof.
  change "PLUGIN_UNIX_SOCKET_DIR:" with ContainerRunner.sentinel.
  split; [|split].
  - unfold ContainerRunner.ResolveAddr.
    destruct (String.eqb_spec network "unix") as [->|Hn].
    + destruct (strings.HasPrefix address ContainerRunner.sentinel) eqn:Hp;
        cbn [negb is_err net.ResolveUnixAddr String.eqb Ascii.eqb Bool.eqb orb].
      * split; [discriminate | intros [H|H]; congruence].
      * split; [right; reflexivity | reflexivity].
    + cbn [is_err]. split; [left; exact Hn | reflexivity].
  - unfold ContainerRunner.ResolveAddr. cbn [String.eqb Ascii.eqb Bool.eqb].
    destruct (strings.HasPrefix address ContainerRunner.sentinel); reflexivity.
  - vm_compute. reflexivity.
Qed.

(** Scenario: a plugin without the sentinel is told to update. *)
Example ResolveAddr_incompatible_plugin :
  ContainerRunner.ResolveAddr (sample_container "/tmp/abc") "unix" "/tmp/plugin.sock"
  = Err incompatible
  /\ ContainerRunner.ResolveAddr (sample_container "/tmp/abc") "tcp" "127.0.0.1:1234"
     = Err (errorString "unsupported address: tcp, 127.0.0.1:1234").
Proof. split; reflexivity. Qed.

Lemma Join_host_double_slash (h x y : string) :
  Join [h; (x ++ "//" ++ y)%string] = Join [h; (x ++ "/" ++ y)%string].
Proof.
  destruct (String.eqb_spec h EmptyString) as [->|Hh].
  - rewrite !Join_nil_l.
    destruct (String.eqb_spec (x ++ "//" ++ y) EmptyString) as [E|_];
      [destruct x; discriminate|].
    destruct (String.eqb_spec (x ++ "/" ++ y) EmptyString) as [E|_];
      [destruct x; discriminate|].
    apply Clean_double_slash.
  - rewrite !Join_two by exact Hh.
    change ("/" ++ x ++ "//" ++ y)%string with (String "/" x ++ "//" ++ y)%string.
    change ("/" ++ x ++ "/" ++ y)%string with (String "/" x ++ "/" ++ y)%string.
    rewrite <- (append_assoc h (String "/" x) ("//" ++ y)).
    rewrite <- (append_assoc h (String "/" x) ("/" ++ y)).
    apply Clean_double_slash.
Qed.

Lemma Join_host_dot_element (h x y : string) :
  Join [h; (x ++ "/./" ++ y)%string] = Join [h; (x ++ "/" ++ y)%string].
Proof.
  destruct (String.eqb_spec h EmptyString) as [->|Hh].
  - rewrite !Join_nil_l.
    destruct (String.eqb_spec (x ++ "/./" ++ y) EmptyString) as [E|_];
      [destruct x; discriminate|].
    destruct (String.eqb_spec (x ++ "/" ++ y) EmptyString) as [E|_];
      [destruct x; discriminate|].
    apply Clean_dot_element.
  - rewrite !Join_two by exact Hh.
    change ("/" ++ x ++ "/./" ++ y)%string with (String "/" x ++ "/./" ++ y)%string.
    change ("/" ++ x ++ "/" ++ y)%string with (String "/" x ++ "/" ++ y)%string.
    rewrite <- (append_assoc h (String "/" x) ("/./" ++ y)).
    rewrite <- (append_assoc h (String "/" x) ("/" ++ y)).
    apply Clean_dot_element.
Qed.

Lemma Join_host_alone (h : string) :
  Join [h; EmptyString] = if String.eqb h EmptyString then EmptyString else Clean h.
Proof.
  destruct (String.eqb_spec h EmptyString) as [->|Hh]; [reflexivity|].
  rewrite Join_two by exact Hh. apply Clean_trailing_slash. exact Hh.
Qed.

(** C10: on network unix the container runner resolves the sentinel
    followed by [r] to [path.Join] of the host directory and [r].  Hence
    the sentinel alone resolves to the host directory in clean form, which
    is the host directory itself when it is written in clean form; a
    doubled slash or a [.] element in [r] makes no difference; and with
    [..] elements the result can lie outside the host directory and differ
    from the host directory, a slash and [r]. *)
Theorem ResolveAddr_lexical_join :
  (forall c r,
      ContainerRunner.ResolveAddr c "unix" ("PLUGIN_UNIX_SOCKET_DIR:" ++ r)
      = Ok (net.UnixAddr (Join [ContainerRunner.hostSocketDir c; r]) "unix"))
  /\ (forall c,
         ContainerRunner.ResolveAddr c "unix" "PLUGIN_UNIX_SOCKET_DIR:"
         = Ok (net.UnixAddr
                 (if String.eqb (ContainerRunner.hostSocketDir c) EmptyString
                  then EmptyString else Clean (ContainerRunner.hostSocketDir c))
                 "unix"))
  /\ (forall c,
         Clean (ContainerRunner.hostSocketDir c) = ContainerRunner.hostSocketDir c ->
         ContainerRunner.ResolveAddr c "unix" "PLUGIN_UNIX_SOCKET_DIR:"
         = Ok (net.UnixAddr (ContainerRunner.hostSocketDir c) "unix"))
  /\ (forall c x y,
         ContainerRunner.ResolveAddr c "unix"
           ("PLUGIN_UNIX_SOCKET_DIR:" ++ x ++ "//" ++ y)
         = ContainerRunner.ResolveAddr c "unix"
             ("PLUGIN_UNIX_SOCKET_DIR:" ++ x ++ "/" ++ y))
  /\ (forall c x y,
         ContainerRunner.ResolveAddr c "unix"
           ("PLUGIN_UNIX_SOCKET_DIR:" ++ x ++ "/./" ++ y)
         = ContainerRunner.ResolveAddr c "unix"
             ("PLUGIN_UNIX_SOCKET_DIR:" ++ x ++ "/" ++ y))
  /\ (ContainerRunner.ResolveAddr (sample_container "/tmp/abc") "unix"
        "PLUGIN_UNIX_SOCKET_DIR:../../etc/passwd"
      = Ok (net.UnixAddr "/etc/passwd" "unix")
      /\ under "/tmp/abc" "/etc/passwd" = false
      /\ "/etc/passwd" <> ("/tmp/abc" ++ "/" ++ "../../etc/passwd")%string).
Proof.
  change "PLUGIN_UNIX_SOCKET_DIR:" with ContainerRunner.sentinel.
  assert (Halone : forall c,
             ContainerRunner.ResolveAddr c "unix" ContainerRunner.sentinel
             = Ok (net.UnixAddr
                     (if String.eqb (ContainerRunner.hostSocketDir c) EmptyString
                      then EmptyString else Clean (ContainerRunner.hostSocketDir c))
                     "unix")).
  { intros c. rewrite <- Join_host_alone.
    rewrite <- (append_nil_r ContainerRunner.sentinel) at 1.
    apply ResolveAddr_sentinel. }
  repeat split.
  - apply ResolveAddr_sentinel.
  - exact Halone.
  - intros c Hc. rewrite Halone.
    destruct (String.eqb_spec (ContainerRunner.hostSocketDir c) EmptyString) as [E|_].
    + rewrite E. reflexivity.
    + rewrite Hc. reflexivity.
  - intros c x y. rewrite !ResolveAddr_sentinel, Join_host_double_slash. reflexivity.
  - intros c x y. rewrite !ResolveAddr_sentinel, Join_host_dot_element. reflexivity.
  - discriminate.
Qed.

Lemma ResolveAddr_lexical_join_witness :
  ContainerRunner.ResolveAddr (sample_container "/tmp/abc") "unix"
    "PLUGIN_UNIX_SOCKET_DIR:"
  = Ok (net.UnixAddr "/tmp/abc" "unix").
Proof.
  exact (proj1 (proj2 (proj2 ResolveAddr_lexical_join))
           (sample_container "/tmp/abc") eq_refl).
Defined.

(** More of what the cleaning join does to advertised remainders. *)
Example ResolveAddr_cleaning_samples :
  ContainerRunner.ResolveAddr (sample_container "/tmp/abc") "unix"
    "PLUGIN_UNIX_SOCKET_DIR:sub//./plugin.sock"
  = Ok (net.UnixAddr "/tmp/abc/sub/plugin.sock" "unix")
  /\ ContainerRunner.ResolveAddr (sample_container "/tmp/abc") "unix"
       "PLUGIN_UNIX_SOCKET_DIR:/plugin.sock"
     = Ok (net.UnixAddr "/tmp/abc/plugin.sock" "unix")
  /\ ContainerRunner.ResolveAddr (sample_container "/tmp/abc") "unix"
       "PLUGIN_UNIX_SOCKET_DIR:.."
     = Ok (net.UnixAddr "/tmp" "unix")
  /\ ContainerRunner.ResolveAddr (sample_container EmptyString) "unix"
       "PLUGIN_UNIX_SOCKET_DIR:plugin.sock"
     = Ok (net.UnixAddr "plugin.sock" "unix").
Proof. repeat split. Qed.

(** ** Address resolution of the local runner *)

(** C8: [ResolveAddr] of the local runner knows the networks tcp and unix
    and no other: for tcp it hands back what the TCP resolver gives for the
    address, for unix the Unix address with the given path, and for any
    other network it fails with the error "Unknown address type: " followed
    by the address. *)
Theorem CmdRunner_ResolveAddr_networks
    (ResolveTCPAddr : string -> string -> result net.TCPAddr)
    (c : CmdRunner.t) (network address : string) :
  CmdRunner.ResolveAddr ResolveTCPAddr c "tcp" address
  = match ResolveTCPAddr "tcp" address with
    | Ok a => Ok (net.TCP a)
    | Err e => Err e
    end
  /\ CmdRunner.ResolveAddr ResolveTCPAddr c "unix" address
     = Ok (net.UnixAddr address "unix")
  /\ (network <> "tcp" -> network <> "unix" ->
      CmdRunner.ResolveAddr ResolveTCPAddr c network address
      = Err (errorString ("Unknown address type: " ++ address)))
  /\ (is_err (CmdRunner.ResolveAddr ResolveTCPAddr c network address) = false ->
      network = "tcp" \/ network = "unix").
Proof.
  repeat split.
  - intros Ht Hu. unfold CmdRunner.ResolveAddr.
    apply String.eqb_neq in Ht, Hu. rewrite Ht, Hu. reflexivity.
  - unfold CmdRunner.ResolveAddr.
    destruct (String.eqb_spec network "tcp") as [->|_]; [left; reflexivity|].
    destruct (String.eqb_spec network "unix") as [->|_]; [right; reflexivity|].
    discriminate.
Qed.

Lemma CmdRunner_ResolveAddr_networks_witness :
  CmdRunner.ResolveAddr sample_resolver sample_local "udp" "127.0.0.1:1234"
  = Err (errorString "Unknown address type: 127.0.0.1:1234")
  /\ ("tcp" = "tcp" \/ "tcp" = "unix").
Proof.
  split.
  - apply (proj1 (proj2 (proj2 (CmdRunner_ResolveAddr_networks sample_resolver
             sample_local "udp" "127.0.0.1:1234")))); discriminate.
  - apply (proj2 (proj2 (proj2 (CmdRunner_ResolveAddr_networks sample_resolver
             sample_local "tcp" "127.0.0.1:1234")))). reflexivity.
Defined.

Example CmdRunner_ResolveAddr_samples :
  CmdRunner.ResolveAddr sample_resolver sample_local "tcp" "127.0.0.1:1234"
  = Ok (net.TCP (net.mkTCPAddr [127; 0; 0; 1]%Z 1234%Z EmptyString))
  /\ CmdRunner.ResolveAddr sample_resolver sample_local "tcp" "nonsense"
     = Err (ExternalError "missing port in address")
  /\ CmdRunner.ResolveAddr sample_resolver sample_local "unix" "/tmp/plugin.sock"
     = Ok (net.UnixAddr "/tmp/plugin.sock" "unix").
Proof. repeat split. Qed.

(** ** [Wait] of the container runner *)

(** C7: [Wait] of the container runner returns nil for a status without an
    error, an error whose message is the status's error message for a
    status with one, and an error received from the error channel as it
    is; the runner is left as it was. *)
Theorem ContainerRunner_Wait_outcomes (c : ContainerRunner.t) (w : World) :
  (forall code,
      ContainerRunner.Wait
        (ContainerRunner.FromStatusCh (container.mkWaitResponse None code)) c w
      = (None, c, emit (EvContainerWait (ContainerRunner.id c)) w))
  /\ (forall message code,
         exists err,
           ContainerRunner.Wait
             (ContainerRunner.FromStatusCh
                (container.mkWaitResponse (Some message) code)) c w
           = (Some err, c, emit (EvContainerWait (ContainerRunner.id c)) w)
           /\ Error err = message)
  /\ (forall err,
         ContainerRunner.Wait (ContainerRunner.FromErrCh (Some err)) c w
         = (Some err, c, emit (EvContainerWait (ContainerRunner.id c)) w)).
Proof.
  split; [|split].
  - reflexivity.
  - intros message code. exists (errors_New message). split; reflexivity.
  - reflexivity.
Qed.

Example ContainerRunner_Wait_samples :
  fst (fst (ContainerRunner.Wait
              (ContainerRunner.FromStatusCh
                 (container.mkWaitResponse (Some "OOM killed") 137%Z))
              (sample_container "/tmp/abc") sample_world))
  = Some (errorString "OOM killed")
  /\ fst (fst (ContainerRunner.Wait
                 (ContainerRunner.FromStatusCh
                    (container.mkWaitResponse None 1%Z))
                 (sample_container "/tmp/abc") sample_world))
     = None
  /\ fst (fst (ContainerRunner.Wait (ContainerRunner.FromErrCh None)
                 (sample_container "/tmp/abc") sample_world))
     = None.
Proof. repeat split. Qed.

(** ** Construction of the container runner *)

(** C6: when the engine client can be made, [NewContainerRunner] gives a
    runner that has not been started (its id is empty), whose host
    configuration has the former mounts followed by one bind mount from
    the host rendezvous directory to [/tmp], read-write, with rshared
    propagation and non-recursive; whose command environment is the former
    one followed by [PLUGIN_UNIX_SOCKET_DIR=/tmp] and then, exactly when
    the configured group id is not zero, by [PLUGIN_UNIX_SOCKET_GROUP=]
    and the group id in decimal; and whose container environment is that
    environment. *)
Theorem NewContainerRunner_edits (cmd : exec.Cmd) (cfg : config.ContainerConfig)
    (hostSocketDir : string) :
  exists c,
    ContainerRunner.NewContainerRunner None cmd cfg hostSocketDir = Ok c
    /\ ContainerRunner.id c = EmptyString
    /\ ContainerRunner.hostSocketDir c = hostSocketDir
    /\ container.Mounts (config.HostConfig (ContainerRunner.config c))
       = container.Mounts (config.HostConfig cfg)
         ++ [mount.mkMount mount.TypeBind hostSocketDir "/tmp" false
               mount.ConsistencyDefault
               (Some (mount.mkBindOptions mount.PropagationRShared true))]
    /\ exec.Env (ContainerRunner.cmd c)
       = exec.Env cmd ++ ["PLUGIN_UNIX_SOCKET_DIR=/tmp"]
         ++ (if Z.eqb (config.UnixSocketGroup cfg) 0 then []
             else [("PLUGIN_UNIX_SOCKET_GROUP="
                    ++ fmt_d (config.UnixSocketGroup cfg))%string])
    /\ container.Env (config.ContainerConfig' (ContainerRunner.config c))
       = exec.Env (ContainerRunner.cmd c).
Proof.
  eexists. split; [reflexivity|]. cbn.
  repeat split.
  destruct (Z.eqb (config.UnixSocketGroup cfg) 0); cbn.
  - reflexivity.
  - rewrite <- app_assoc. reflexivity.
Qed.

Example NewContainerRunner_group_samples :
  (exists c, ContainerRunner.NewContainerRunner None sample_cmd (sample_cfg 1000) "/tmp/abc" = Ok c
             /\ exec.Env (ContainerRunner.cmd c)
                = ["HOME=/root"; "PLUGIN_UNIX_SOCKET_DIR=/tmp";
                   "PLUGIN_UNIX_SOCKET_GROUP=1000"])
  /\ (exists c, ContainerRunner.NewContainerRunner None sample_cmd (sample_cfg 0) "/tmp/abc" = Ok c
                /\ exec.Env (ContainerRunner.cmd c)
                   = ["HOME=/root"; "PLUGIN_UNIX_SOCKET_DIR=/tmp"])
  /\ ContainerRunner.NewContainerRunner (Some (ExternalError "no engine"))
       sample_cmd (sample_cfg 0) "/tmp/abc"
     = Err (ExternalError "no engine").
Proof. repeat split; eexists; split; reflexivity. Qed.

(** ** Names *)

Lemma CmdRunner_step_path (o : CmdRunner.Op) (st : CmdRunner.t * World) :
  CmdRunner.path (fst (CmdRunner.step o st)) = CmdRunner.path (fst st).
Proof.
  destruct st as [c w]. destruct o as [spawn|exit|answer|p]; cbn [CmdRunner.step fst].
  - unfold CmdRunner.Start, exec.Start.
    destruct (exec.Process (CmdRunner.cmd c)); [reflexivity|].
    destruct spawn; reflexivity.
  - unfold CmdRunner.Wait, exec.Wait.
    destruct (exec.Process (CmdRunner.cmd c)); [|reflexivity].
    destruct (exec.waited (CmdRunner.cmd c)); reflexivity.
  - unfold CmdRunner.Kill.
    destruct (exec.Process (CmdRunner.cmd c)); reflexivity.
  - reflexivity.
Qed.

Lemma CmdRunner_run_path (ops : list CmdRunner.Op) (st : CmdRunner.t * World) :
  CmdRunner.path (fst (CmdRunner.run ops st)) = CmdRunner.path (fst st).
Proof.
  revert st. induction ops as [|o ops IH]; intros st; [reflexivity|].
  cbn [CmdRunner.run fold_left]. fold (CmdRunner.run ops (CmdRunner.step o st)).
  rewrite IH. apply CmdRunner_step_path.
Qed.

Lemma ContainerRunner_step_image (o : ContainerRunner.Op)
    (st : ContainerRunner.t * World) :
  ContainerRunner.image (fst (ContainerRunner.step o st))
  = ContainerRunner.image (fst st).
Proof.
  destruct st as [c w].
  destruct o as [create start logs|ev|stop|img]; cbn [ContainerRunner.step fst].
  - unfold ContainerRunner.Start.
    destruct create; [|reflexivity]. destruct start; [reflexivity|].
    destruct logs; reflexivity.
  - unfold ContainerRunner.Wait. destruct ev as [[e|]|st]; try reflexivity.
    destruct (container.WaitError st); reflexivity.
  - unfold ContainerRunner.Kill.
    destruct (negb (String.eqb (ContainerRunner.id c) EmptyString)); reflexivity.
  - reflexivity.
Qed.

Lemma ContainerRunner_run_image (ops : list ContainerRunner.Op)
    (st : ContainerRunner.t * World) :
  ContainerRunner.image (fst (ContainerRunner.run ops st))
  = ContainerRunner.image (fst st).
Proof.
  revert st. induction ops as [|o ops IH]; intros st; [reflexivity|].
  cbn [ContainerRunner.run fold_left].
  fold (ContainerRunner.run ops (ContainerRunner.step o st)).
  rewrite IH. apply ContainerRunner_step_image.
Qed.

Lemma NewCmdRunner_ok (outPipe errPipe : result ReadCloser) (cmd cmd' : exec.Cmd)
    (c : CmdRunner.t) :
  CmdRunner.NewCmdRunner outPipe errPipe cmd = (cmd', Ok c) ->
  CmdRunner.path c = exec.Path cmd
  /\ CmdRunner.pid c = 0%Z
  /\ exec.Process (CmdRunner.cmd c) = None.
Proof.
  unfold CmdRunner.NewCmdRunner, exec.StdoutPipe, exec.StderrPipe.
  destruct (exec.StdoutSet cmd); [discriminate|].
  destruct (exec.Process cmd) eqn:Hp; [discriminate|].
  destruct outPipe as [pr|e]; [|discriminate]. cbn.
  destruct (exec.StderrSet cmd); [discriminate|].
  destruct errPipe as [pe|e]; [|discriminate].
  intros H. injection H as _ <-. cbn. repeat split.
Qed.

(** C9: the name of a runner is fixed at construction and no later
    operation changes it.  The local runner's name is the path the command
    had when the runner was made, whatever is done with the runner or with
    the command's path afterwards; the container runner's name is the
    image of the configuration it was made from. *)
Theorem Name_fixed_at_construction :
  (forall outPipe errPipe cmd cmd' c ops w,
      CmdRunner.NewCmdRunner outPipe errPipe cmd = (cmd', Ok c) ->
      CmdRunner.Name c = exec.Path cmd
      /\ CmdRunner.Name (fst (CmdRunner.run ops (c, w))) = exec.Path cmd)
  /\ (forall cmd cfg hostSocketDir c ops w,
         ContainerRunner.NewContainerRunner None cmd cfg hostSocketDir = Ok c ->
         ContainerRunner.Name c = container.Image (config.ContainerConfig' cfg)
         /\ ContainerRunner.Name (fst (ContainerRunner.run ops (c, w)))
            = container.Image (config.ContainerConfig' cfg)).
Proof.
  split.
  - intros outPipe errPipe cmd cmd' c ops w H.
    apply NewCmdRunner_ok in H as (Hpath & _ & _).
    unfold CmdRunner.Name. rewrite CmdRunner_run_path. split; exact Hpath.
  - intros cmd cfg hostSocketDir c ops w H.
    unfold ContainerRunner.Name. rewrite ContainerRunner_run_image.
    cbn in H. injection H as <-. split; reflexivity.
Qed.

Lemma Name_fixed_at_construction_witness :
  CmdRunner.Name
    (fst (CmdRunner.run
            [CmdRunner.OpStart (Ok 4242%Z); CmdRunner.OpCallerSetsPath "/bin/other";
             CmdRunner.OpKill None; CmdRunner.OpWait (Some (ExternalError "signal: killed"))]
            (sample_local, sample_world)))
  = "/bin/sh"
  /\ ContainerRunner.Name
       (fst (ContainerRunner.run
               [ContainerRunner.OpStart (Ok "3f4e8a") None None;
                ContainerRunner.OpCallerSetsImage "other-image";
                ContainerRunner.OpKill None]
               (sample_container "/tmp/abc", sample_world)))
     = "plugin-image:latest".
Proof.
  split.
  - exact (proj2 (proj1 Name_fixed_at_construction
             (Ok (CmdPipe 3)) (Ok (CmdPipe 5)) sample_cmd _ sample_local _ sample_world
             eq_refl)).
  - exact (proj2 (proj2 Name_fixed_at_construction
             sample_cmd (sample_cfg 0) "/tmp/abc" (sample_container "/tmp/abc") _
             sample_world eq_refl)).
Defined.

(** ** Identifiers *)

Example samples_started :
  ContainerRunner.Start (Ok "3f4e8a") None None (sample_container "/tmp/abc") sample_world
  = (None, sample_started,
     mkWorld (fs sample_world) true
       [EvContainerCreate "plugin-image:latest"; EvContainerStart "3f4e8a";
        EvContainerLogs "3f4e8a"; EvDemuxSpawned "3f4e8a"])
  /\ CmdRunner.Start (Ok 4242%Z) sample_local sample_world
     = (None, sample_spawned, mkWorld (fs sample_world) true [EvCmdStart]).
Proof. split; reflexivity. Qed.



Lemma CmdRunner_Kill_runner (answer : option error) (c : CmdRunner.t) (w : World) :
  runner_of (CmdRunner.Kill answer c w) = c.
Proof.
  unfold CmdRunner.Kill. destruct (exec.Process (CmdRunner.cmd c)); reflexivity.
Qed.

Lemma ContainerRunner_Start_id (create : result string) (start logs : option error)
    (c : ContainerRunner.t) (w : World) :
  ContainerRunner.id (runner_of (ContainerRunner.Start create start logs c w))
  = match create with Ok respID => respID | Err _ => ContainerRunner.id c end.
Proof.
  unfold ContainerRunner.Start. destruct create; [|reflexivity].
  destruct start; [reflexivity|]. destruct logs; reflexivity.
Qed.



Lemma ContainerRunner_Kill_runner (stop : option error)
    (c : ContainerRunner.t) (w : World) :
  runner_of (ContainerRunner.Kill stop c w) = c.
Proof.
  unfold ContainerRunner.Kill.
  destruct (negb (String.eqb (ContainerRunner.id c) EmptyString)); reflexivity.
Qed.




(** ** [Kill] *)


Lemma RemoveAll_trace (dir : string) (w : World) :
  trace (RemoveAll dir w) = trace w ++ [EvRemoveAll dir]
  /\ clientOpen (RemoveAll dir w) = clientOpen w.
Proof. unfold RemoveAll. destruct (String.eqb dir EmptyString); split; reflexivity. Qed.

Lemma ContainerRunner_Kill_unfold (stop : option error) (c : ContainerRunner.t)
    (w : World) :
  ContainerRunner.Kill stop c w
  = if String.eqb (ContainerRunner.id c) EmptyString
    then (None, c, ClientClose (RemoveAll (ContainerRunner.hostSocketDir c) w))
    else (stop, c,
          ClientClose (RemoveAll (ContainerRunner.hostSocketDir c)
                         (emit (EvContainerStop (ContainerRunner.id c)) w))).
Proof.
  unfold ContainerRunner.Kill.
  destruct (String.eqb (ContainerRunner.id c) EmptyString); reflexivity.
Qed.



(** C5, as the code has it.  [Kill] returns what the kill or stop request
    it issues returns, and nil when it issues none; so a [Kill] after a
    [Kill] returns nil when those requests succeed.  A [Kill] on a local
    runner that was never started returns nil and changes nothing.  A
    [Kill] on a container runner that was never started returns nil and
    issues no stop request, but closes the engine client and removes the
    host rendezvous directory. *)
Theorem Kill_results :
  (forall outPipe errPipe cmd cmd' c answer w,
      CmdRunner.NewCmdRunner outPipe errPipe cmd = (cmd', Ok c) ->
      CmdRunner.Kill answer c w = (None, c, w))
  /\ (forall answer c w p,
         exec.Process (CmdRunner.cmd c) = Some p ->
         CmdRunner.Kill answer c w = (answer, c, emit (EvProcessKill p) w))
  /\ (forall c w,
         error_of (CmdRunner.Kill None c w) = None
         /\ error_of (CmdRunner.Kill None
                        (runner_of (CmdRunner.Kill None c w))
                        (world_of (CmdRunner.Kill None c w))) = None)
  /\ (forall cmd cfg hostSocketDir c stop w,
         ContainerRunner.NewContainerRunner None cmd cfg hostSocketDir = Ok c ->
         ContainerRunner.Kill stop c w
         = (None, c, ClientClose (RemoveAll hostSocketDir w)))
  /\ (forall stop c w,
         ContainerRunner.id c <> EmptyString ->
         ContainerRunner.Kill stop c w
         = (stop, c,
            ClientClose (RemoveAll (ContainerRunner.hostSocketDir c)
                           (emit (EvContainerStop (ContainerRunner.id c)) w))))
  /\ (forall c w,
         error_of (ContainerRunner.Kill None c w) = None
         /\ error_of (ContainerRunner.Kill None
                        (runner_of (ContainerRunner.Kill None c w))
                        (world_of (ContainerRunner.Kill None c w))) = None).
Proof.
  repeat apply conj.
  - intros outPipe errPipe cmd cmd' c answer w H.
    apply NewCmdRunner_ok in H as (_ & _ & Hp).
    unfold CmdRunner.Kill. rewrite Hp. reflexivity.
  - intros answer c w p Hp. unfold CmdRunner.Kill. rewrite Hp. reflexivity.
  - intros c w. rewrite CmdRunner_Kill_runner. unfold CmdRunner.Kill.
    destruct (exec.Process (CmdRunner.cmd c)); split; reflexivity.
  - intros cmd cfg hostSocketDir c stop w H. cbn in H. injection H as <-.
    reflexivity.
  - intros stop c w Hid. rewrite ContainerRunner_Kill_unfold.
    apply String.eqb_neq in Hid. rewrite Hid. reflexivity.
  - intros c w. rewrite ContainerRunner_Kill_runner.
    rewrite !ContainerRunner_Kill_unfold.
    destruct (String.eqb (ContainerRunner.id c) EmptyString); split; reflexivity.
Qed.

Lemma Kill_results_witness :
  CmdRunner.Kill (Some (ExternalError "permission denied")) sample_local sample_world
  = (None, sample_local, sample_world)
  /\ CmdRunner.Kill None sample_spawned sample_world
     = (None, sample_spawned, emit (EvProcessKill 4242%Z) sample_world)
  /\ ContainerRunner.Kill (Some (ExternalError "no such container"))
       (sample_container "/tmp/abc") sample_world
     = (None, sample_container "/tmp/abc",
        ClientClose (RemoveAll "/tmp/abc" sample_world))
  /\ ContainerRunner.Kill None sample_started sample_world
     = (None, sample_started,
        ClientClose (RemoveAll "/tmp/abc" (emit (EvContainerStop "3f4e8a") sample_world))).
Proof.
  destruct Kill_results as (H1 & H2 & _ & H4 & H5 & _).
  split; [|split; [|split]].
  - exact (H1 (Ok (CmdPipe 3)) (Ok (CmdPipe 5)) sample_cmd _ sample_local _ _ eq_refl).
  - exact (H2 None sample_spawned sample_world 4242%Z eq_refl).
  - exact (H4 sample_cmd (sample_cfg 0) "/tmp/abc" _ _ sample_world eq_refl).
  - apply (H5 None sample_started sample_world). discriminate.
Defined.

(** C5 as stated fails.  A [Kill] on a container runner that was never
    started returns nil but is no no-op: the host rendezvous directory and
    what it holds are gone and the engine client is closed.  And a second
    [Kill] returns the error of its kill request when that request fails,
    as it does for a process that has already been waited for. *)
Lemma Kill_before_Start_cleans_up :
  ContainerRunner.NewContainerRunner None sample_cmd (sample_cfg 0) "/tmp/abc"
  = Ok (sample_container "/tmp/abc")
  /\ In "/tmp/abc" (fs sample_world)
  /\ clientOpen sample_world = true
  /\ ContainerRunner.Kill None (sample_container "/tmp/abc") sample_world
     = (None, sample_container "/tmp/abc",
        mkWorld ["/tmp/other"] false [EvRemoveAll "/tmp/abc"; EvClientClose])
  /\ world_of (ContainerRunner.Kill None (sample_container "/tmp/abc") sample_world)
     <> sample_world
  /\ (let '(c1, w1) :=
        CmdRunner.run [CmdRunner.OpStart (Ok 4242%Z); CmdRunner.OpKill None;
                       CmdRunner.OpWait (Some (ExternalError "signal: killed"))]
                      (sample_local, sample_world) in
      error_of (CmdRunner.Kill (Some (ExternalError "os: process already finished"))
                  c1 w1)
      = Some (ExternalError "os: process already finished")).
Proof.
  repeat split.
  - left. reflexivity.
  - discriminate.
Qed.

(** * Further properties *)

(** ** Where the resolved path lies *)

Example has_dotdot_element_samples :
  map has_dotdot_element
    [".."; "a/../b"; "a/.."; "/.."; "../a"; "a..b"; "..."; "..a"; "a/..b"; "a/b..";
     "sub/./plugin.sock"; EmptyString]
  = [true; true; true; true; true; false; false; false; false; false; false; false].
Proof. reflexivity. Qed.

Lemma dotdot_at_boundary (s : string) (b b' : bool) :
  end_or_slash s = true -> dotdot_at b s = dotdot_at b' s.
Proof.
  destruct s as [|c s']; [reflexivity|]. cbn [end_or_slash dotdot_at]. intros Hc.
  assert (Hd : is_dot c = false).
  { unfold is_slash in Hc. apply Ascii.eqb_eq in Hc. subst c. reflexivity. }
  rewrite Hd, !andb_false_r. reflexivity.
Qed.

Lemma dotdot_at_tail (b : bool) (c : ascii) (s : string) :
  dotdot_at b (String c s) = false -> dotdot_at (is_slash c) s = false.
Proof. cbn [dotdot_at]. intros H. apply orb_false_iff in H as [_ H]. exact H. Qed.

Lemma copy_element_boundary (rest : string) (out : lazybuf) :
  end_or_slash (fst (copy_element rest out)) = true.
Proof.
  revert out. induction rest as [|c rest IH]; intros out; [reflexivity|].
  cbn [copy_element]. destruct (is_slash c) eqn:Hs; [exact Hs | apply IH].
Qed.

Lemma copy_element_no_dotdot (rest : string) (out : lazybuf) (b : bool) :
  dotdot_at b rest = false ->
  dotdot_at true (fst (copy_element rest out)) = false.
Proof.
  revert out b. induction rest as [|c rest IH]; intros out b H; [reflexivity|].
  cbn [copy_element]. destruct (is_slash c) eqn:Hs.
  - cbn [fst]. rewrite <- H. apply dotdot_at_boundary. exact Hs.
  - apply dotdot_at_tail in H. rewrite Hs in H. apply (IH _ false). exact H.
Qed.

Lemma copy_element_grows (rest : string) (out : lazybuf) :
  exists el, snd (copy_element rest out) = el ++ out
             /\ (end_or_slash rest = false -> el <> []).
Proof.
  revert out. induction rest as [|c rest IH]; intros out.
  - exists []. split; [reflexivity | discriminate].
  - cbn [copy_element end_or_slash]. destruct (is_slash c) eqn:Hs.
    + exists []. split; [reflexivity | discriminate].
    + destruct (IH (c :: out)) as (el & Hel & _).
      exists (el ++ [c]). split.
      * rewrite Hel, <- app_assoc. reflexivity.
      * intros _ E. apply app_eq_nil in E as [_ E]. discriminate.
Qed.

(** Without a [..] element the loop only ever adds to its buffer: what it
    adds is nothing, or begins with a slash. *)
Lemma clean_run_no_dotdot (rooted : bool) (n : nat) :
  forall rest out dd,
    String.length rest <= n ->
    dotdot_at true rest = false ->
    (rooted && negb (List.length out =? 1)%nat)
    || (negb rooted && negb (List.length out =? 0)%nat) = true ->
    exists ext,
      fst (clean_run rooted rest out dd) = ext ++ out
      /\ (ext = [] \/ exists ext', ext = ext' ++ ["/"%char]).
Proof.
  induction n as [|n IH]; intros rest out dd Hlen Hnd Hsl.
  - destruct rest; [|simpl in Hlen; lia]. exists []. split; [reflexivity | now left].
  - destruct rest as [|c rest1]; [exists []; split; [reflexivity | now left]|].
    simpl in Hlen. rewrite clean_run_unfold.
    destruct (is_slash c) eqn:Hs.
    { apply IH; [lia | | exact Hsl]. apply dotdot_at_tail in Hnd.
      rewrite Hs in Hnd. exact Hnd. }
    destruct (is_dot c && end_or_slash rest1) eqn:Hdot.
    { apply andb_true_iff in Hdot as [_ He].
      apply IH; [lia | | exact Hsl]. apply dotdot_at_tail in Hnd.
      rewrite <- Hnd. apply dotdot_at_boundary. exact He. }
    destruct (is_dot c && match rest1 with
                          | String c1 rest2 => is_dot c1 && end_or_slash rest2
                          | EmptyString => false
                          end) eqn:Hdd.
    { cbn [dotdot_at] in Hnd. cbn [andb] in Hnd. rewrite Hdd in Hnd. discriminate. }
    cbn zeta. rewrite Hsl.
    destruct (copy_element_grows (String c rest1) ("/"%char :: out)) as (el & Hel & Hne).
    pose proof (copy_element_length (String c rest1) ("/"%char :: out)) as Hl.
    pose proof (copy_element_no_dotdot (String c rest1) ("/"%char :: out) true Hnd) as Hn.
    assert (Hc : copy_element (String c rest1) ("/"%char :: out)
                 = copy_element rest1 (c :: "/"%char :: out))
      by (cbn [copy_element]; rewrite Hs; reflexivity).
    pose proof (copy_element_length rest1 (c :: "/"%char :: out)) as Hl1.
    rewrite <- Hc in Hl1.
    destruct (copy_element (String c rest1) ("/"%char :: out)) as [rest' out2].
    cbn [fst snd] in *. subst out2.
    specialize (Hne Hs).
    destruct (IH rest' (el ++ "/"%char :: out) dd) as (ext & Hext & _);
      [lia | exact Hn | |].
    + rewrite length_app. cbn [List.length].
      destruct el; [congruence|]. cbn [List.length].
      destruct rooted; cbn [andb orb negb].
      * rewrite orb_false_r. apply negb_true_iff. apply Nat.eqb_neq. lia.
      * reflexivity.
    + exists (ext ++ el ++ ["/"%char]). split.
      * rewrite Hext. rewrite <- !app_assoc. reflexivity.
      * right. exists (ext ++ el). rewrite <- app_assoc. reflexivity.
Qed.

Lemma under_self_or_below (h suffix : string) :
  suffix = EmptyString \/ (exists s, suffix = String "/" s) ->
  under h (h ++ suffix) = true.
Proof.
  intros [->|[s ->]]; unfold under.
  - rewrite append_nil_r, String.eqb_refl. reflexivity.
  - change (String "/" s) with ("/" ++ s)%string.
    rewrite <- append_assoc, HasPrefix_append. apply orb_true_r.
Qed.

Lemma lazybuf_string_app (ext out : lazybuf) :
  lazybuf_string (ext ++ out)
  = (lazybuf_string out ++ string_of_list_ascii (rev ext))%string.
Proof.
  unfold lazybuf_string. rewrite rev_app_distr. apply string_of_list_ascii_app.
Qed.

(** X1.  For a host directory in clean form, a remainder after the
    sentinel that has no [..] element resolves to the host directory or to
    a path beneath it. *)
Theorem ResolveAddr_without_dotdot_stays_inside (c : ContainerRunner.t) (r : string) :
  clean_dir (ContainerRunner.hostSocketDir c) = true ->
  has_dotdot_element r = false ->
  exists p,
    ContainerRunner.ResolveAddr c "unix" ("PLUGIN_UNIX_SOCKET_DIR:" ++ r)
    = Ok (net.UnixAddr p "unix")
    /\ under (ContainerRunner.hostSocketDir c) p = true.
Proof.
  intros Hdir Hr. destruct (clean_dir_state _ Hdir) as (Hne & Hstr & Hsl).
  change "PLUGIN_UNIX_SOCKET_DIR:" with ContainerRunner.sentinel.
  rewrite ResolveAddr_sentinel. eexists. split; [reflexivity|].
  rewrite Join_two by exact Hne.
  change ("/" ++ r)%string with (String "/" r).
  rewrite Clean_state by apply app_slash_nonempty.
  rewrite clean_state_app by exact Hne.
  set (h := ContainerRunner.hostSocketDir c) in *.
  destruct (clean_run_no_dotdot (is_rooted h) (String.length r) r
              (fst (clean_state h)) (snd (clean_state h)) (le_n _) Hr Hsl)
    as (ext & Hext & Hshape).
  rewrite Hext.
  assert (Hout : fst (clean_state h) <> []).
  { intros E. rewrite E in Hsl. destruct (is_rooted h) eqn:Hr'; cbn in Hsl;
      [|discriminate].
    rewrite E in Hstr. unfold lazybuf_string in Hstr. cbn in Hstr.
    congruence. }
  destruct (ext ++ fst (clean_state h)) as [|a l] eqn:E.
  { apply app_eq_nil in E as [_ E]. contradiction. }
  rewrite <- E, lazybuf_string_app, Hstr.
  apply under_self_or_below.
  destruct Hshape as [->|[ext' ->]]; [left; reflexivity|].
  right. rewrite rev_app_distr. cbn [rev app string_of_list_ascii].
  eexists. reflexivity.
Qed.

Lemma ResolveAddr_without_dotdot_stays_inside_witness :
  exists p,
    ContainerRunner.ResolveAddr (sample_container "/tmp/abc") "unix"
      "PLUGIN_UNIX_SOCKET_DIR:sub/./plugin.sock"
    = Ok (net.UnixAddr p "unix")
    /\ under "/tmp/abc" p = true.
Proof.
  exact (ResolveAddr_without_dotdot_stays_inside (sample_container "/tmp/abc")
           "sub/./plugin.sock" eq_refl eq_refl).
Defined.

Lemma backtrack_from_suffix (dd : nat) (out : lazybuf) :
  forall last,
    exists pre, out = pre ++ backtrack_from dd last out
                /\ (dd <= List.length out ->
                    dd <= List.length (backtrack_from dd last out)).
Proof.
  induction out as [|c out IH]; intros last.
  - exists []. split; [reflexivity | intros H; exact H].
  - cbn [backtrack_from].
    destruct ((dd <? List.length (c :: out))%nat && negb (is_slash last)) eqn:E.
    + apply andb_true_iff in E as [E _]. apply Nat.ltb_lt in E. cbn [List.length] in E.
      destruct (IH c) as (pre & Hpre & Hlen).
      exists (c :: pre). split; [cbn; f_equal; exact Hpre | intros _; apply Hlen; lia].
    + exists []. split; [reflexivity | intros H; exact H].
Qed.

Lemma backtrack_suffix (dd : nat) (out : lazybuf) :
  dd < List.length out ->
  exists pre, out = pre ++ backtrack dd out /\ dd <= List.length (backtrack dd out).
Proof.
  destruct out as [|c out]; [cbn; lia|]. cbn [List.length backtrack]. intros H.
  destruct (backtrack_from_suffix dd out c) as (pre & Hpre & Hlen).
  exists (c :: pre). split; [cbn; f_equal; exact Hpre | apply Hlen; lia].
Qed.

Lemma is_rooted_lazybuf_app (ext out : lazybuf) :
  out <> [] ->
  is_rooted (lazybuf_string (ext ++ out)) = is_rooted (lazybuf_string out).
Proof.
  intros Hout. rewrite lazybuf_string_app. apply is_rooted_app.
  unfold lazybuf_string. intros E.
  apply (f_equal String.length) in E.
  rewrite length_string_of_list_ascii, length_rev in E.
  destruct out; [congruence | discriminate].
Qed.

(** The loop keeps the first byte of its buffer: a slash for a rooted
    path, no slash otherwise. *)
Lemma clean_run_rooted (rooted : bool) (n : nat) :
  forall rest out dd,
    String.length rest <= n ->
    is_rooted (lazybuf_string out) = rooted ->
    (rooted = true -> 1 <= dd) ->
    is_rooted (lazybuf_string (fst (clean_run rooted rest out dd))) = rooted.
Proof.
  induction n as [|n IH]; intros rest out dd Hlen Hinv Hdd.
  - destruct rest; [exact Hinv | simpl in Hlen; lia].
  - destruct rest as [|c rest1]; [exact Hinv|].
    simpl in Hlen. rewrite clean_run_unfold.
    destruct (is_slash c) eqn:Hs; [apply IH; [lia | exact Hinv | exact Hdd]|].
    destruct (is_dot c && end_or_slash rest1);
      [apply IH; [lia | exact Hinv | exact Hdd]|].
    destruct (is_dot c && match rest1 with
                          | String c1 rest2 => is_dot c1 && end_or_slash rest2
                          | EmptyString => false
                          end) eqn:Hdots.
    + destruct rest1 as [|c1 rest2]; [rewrite andb_false_r in Hdots; discriminate|].
      cbn zeta. simpl in Hlen.
      destruct (dd <? List.length out)%nat eqn:Hlt.
      * apply Nat.ltb_lt in Hlt.
        destruct (backtrack_suffix dd out Hlt) as (pre & Hpre & Hge).
        apply IH; [lia | | exact Hdd].
        destruct (backtrack dd out) as [|a suf] eqn:Eb.
        -- destruct rooted; [specialize (Hdd eq_refl); cbn in Hge; lia | reflexivity].
        -- rewrite Hpre in Hinv. rewrite <- Hinv.
           symmetry. apply is_rooted_lazybuf_app. discriminate.
      * destruct rooted; cbn [negb].
        -- apply IH; [lia | exact Hinv | exact Hdd].
        -- apply IH; [lia | | discriminate].
           destruct out as [|a out']; [reflexivity|].
           cbn [List.length Nat.ltb Nat.leb].
           etransitivity; [|exact Hinv].
           apply (is_rooted_lazybuf_app ["."%char; "."%char; "/"%char] (a :: out')).
           discriminate.
    + cbn zeta.
      destruct (copy_element_grows rest1
                  (c :: (if (rooted && negb (List.length out =? 1)%nat)
                            || (negb rooted && negb (List.length out =? 0)%nat)
                         then "/"%char :: out else out))) as (el & Hel & _).
      pose proof (copy_element_length rest1
                  (c :: (if (rooted && negb (List.length out =? 1)%nat)
                            || (negb rooted && negb (List.length out =? 0)%nat)
                         then "/"%char :: out else out))) as Hl.
      match goal with
      | |- context [copy_element (String c rest1) ?o] =>
          assert (Hc : copy_element (String c rest1) o = copy_element rest1 (c :: o))
            by (cbn [copy_element]; rewrite Hs; reflexivity);
          rewrite Hc
      end.
      destruct (copy_element rest1 _) as [rest' out2]. cbn [fst snd] in *.
      apply IH; [lia | | exact Hdd]. subst out2.
      destruct out as [|a out'].
      * destruct rooted; [discriminate Hinv|].
        cbn [List.length Nat.eqb negb andb orb].
        unfold lazybuf_string. rewrite rev_app_distr. cbn. exact Hs.
      * etransitivity; [|exact Hinv].
        destruct ((rooted && negb (List.length (a :: out') =? 1)%nat)
                  || (negb rooted && negb (List.length (a :: out') =? 0)%nat)).
        -- replace (el ++ c :: "/"%char :: a :: out')
             with ((el ++ [c; "/"%char]) ++ a :: out')
             by (rewrite <- app_assoc; reflexivity).
           apply is_rooted_lazybuf_app. discriminate.
        -- replace (el ++ c :: a :: out') with ((el ++ [c]) ++ a :: out')
             by (rewrite <- app_assoc; reflexivity).
           apply is_rooted_lazybuf_app. discriminate.
Qed.

(** [Clean] gives a rooted path for a rooted one and an unrooted path for
    an unrooted one. *)
Lemma Clean_rooted (p : string) : is_rooted (Clean p) = is_rooted p.
Proof.
  destruct p as [|c0 rest0]; [reflexivity|].
  rewrite Clean_state by discriminate. cbn [clean_state is_rooted].
  destruct (is_slash c0) eqn:Hs.
  - pose proof (clean_run_rooted true (String.length rest0) rest0 ["/"%char] 1
                  (le_n _) eq_refl (fun _ => le_n 1)) as H.
    destruct (fst (clean_run true rest0 ["/"%char] 1)); [discriminate H | exact H].
  - pose proof (clean_run_rooted false (String.length (String c0 rest0))
                  (String c0 rest0) [] 0 (le_n _) eq_refl
                  (fun E => ltac:(discriminate E))) as H.
    destruct (fst (clean_run false (String c0 rest0) [] 0)); [reflexivity | exact H].
Qed.

(** X2.  With a host directory that is not empty, the resolved path is
    absolute exactly when the host directory is, whatever follows the
    sentinel. *)
Theorem ResolveAddr_keeps_rootedness (c : ContainerRunner.t) (r : string) :
  ContainerRunner.hostSocketDir c <> EmptyString ->
  exists p,
    ContainerRunner.ResolveAddr c "unix" ("PLUGIN_UNIX_SOCKET_DIR:" ++ r)
    = Ok (net.UnixAddr p "unix")
    /\ is_rooted p = is_rooted (ContainerRunner.hostSocketDir c).
Proof.
  intros Hne. change "PLUGIN_UNIX_SOCKET_DIR:" with ContainerRunner.sentinel.
  rewrite ResolveAddr_sentinel. eexists. split; [reflexivity|].
  rewrite Join_two by exact Hne. rewrite Clean_rooted.
  apply is_rooted_app. exact Hne.
Qed.

Lemma ResolveAddr_keeps_rootedness_witness :
  exists p,
    ContainerRunner.ResolveAddr (sample_container "/tmp/abc") "unix"
      "PLUGIN_UNIX_SOCKET_DIR:../../../../etc/passwd"
    = Ok (net.UnixAddr p "unix")
    /\ is_rooted p = true.
Proof.
  apply (ResolveAddr_keeps_rootedness (sample_container "/tmp/abc")
           "../../../../etc/passwd").
  discriminate.
Defined.

Lemma Clean_nonempty (p : string) : Clean p <> EmptyString.
Proof.
  destruct p as [|c0 rest0]; [discriminate|].
  rewrite Clean_state by discriminate.
  destruct (fst (clean_state (String c0 rest0))) as [|a l] eqn:E; [discriminate|].
  unfold lazybuf_string. intros H. apply (f_equal String.length) in H.
  rewrite length_string_of_list_ascii, length_rev in H. discriminate.
Qed.

Lemma Join_empty_iff (h r : string) :
  Join [h; r] = EmptyString <-> h = EmptyString /\ r = EmptyString.
Proof.
  split.
  - intros H. destruct (String.eqb_spec h EmptyString) as [->|Hh].
    + rewrite Join_nil_l in H.
      destruct r as [|c r0]; [split; reflexivity|].
      cbn [String.eqb] in H. exfalso. exact (Clean_nonempty _ H).
    + rewrite Join_two in H by exact Hh. exfalso. exact (Clean_nonempty _ H).
  - intros [-> ->]. reflexivity.
Qed.

(** X3.  The path that [ResolveAddr] of the container runner gives is the
    empty string exactly when the host directory and what follows the
    sentinel are both empty. *)
Theorem ResolveAddr_empty_path_iff (c : ContainerRunner.t) (r : string) :
  ContainerRunner.ResolveAddr c "unix" ("PLUGIN_UNIX_SOCKET_DIR:" ++ r)
  = Ok (net.UnixAddr EmptyString "unix")
  <-> ContainerRunner.hostSocketDir c = EmptyString /\ r = EmptyString.
Proof.
  change "PLUGIN_UNIX_SOCKET_DIR:" with ContainerRunner.sentinel.
  rewrite ResolveAddr_sentinel. rewrite <- Join_empty_iff. split.
  - intros H. injection H as H. exact H.
  - intros ->. reflexivity.
Qed.

(** X4.  A slash at the end of a host directory that is not empty makes no
    difference to what [ResolveAddr] returns, for any network and
    address. *)
Theorem ResolveAddr_host_trailing_slash (c1 c2 : ContainerRunner.t)
    (network address : string) :
  ContainerRunner.hostSocketDir c1 <> EmptyString ->
  ContainerRunner.hostSocketDir c2 = (ContainerRunner.hostSocketDir c1 ++ "/")%string ->
  ContainerRunner.ResolveAddr c2 network address
  = ContainerRunner.ResolveAddr c1 network address.
Proof.
  intros Hne H2. unfold ContainerRunner.ResolveAddr. rewrite H2.
  destruct (String.eqb network "unix"); [|reflexivity].
  destruct (strings.HasPrefix address ContainerRunner.sentinel); [|reflexivity].
  cbn [negb]. f_equal.
  rewrite !Join_two; [|exact Hne|destruct (ContainerRunner.hostSocketDir c1); discriminate].
  rewrite append_assoc. apply Clean_double_slash.
Qed.

Lemma ResolveAddr_host_trailing_slash_witness :
  ContainerRunner.ResolveAddr (sample_container "/tmp/abc/") "unix"
    "PLUGIN_UNIX_SOCKET_DIR:plugin.sock"
  = ContainerRunner.ResolveAddr (sample_container "/tmp/abc") "unix"
      "PLUGIN_UNIX_SOCKET_DIR:plugin.sock".
Proof.
  apply (ResolveAddr_host_trailing_slash (sample_container "/tmp/abc")
           (sample_container "/tmp/abc/")); [discriminate | reflexivity].
Defined.

(** X5.  With a host directory that is not empty, a slash right after the
    sentinel makes no difference: a remainder that looks absolute is
    taken relative to the host directory. *)
Theorem ResolveAddr_remainder_leading_slash (c : ContainerRunner.t) (r : string) :
  ContainerRunner.hostSocketDir c <> EmptyString ->
  ContainerRunner.ResolveAddr c "unix" ("PLUGIN_UNIX_SOCKET_DIR:" ++ "/" ++ r)
  = ContainerRunner.ResolveAddr c "unix" ("PLUGIN_UNIX_SOCKET_DIR:" ++ r).
Proof.
  intros Hne. change "PLUGIN_UNIX_SOCKET_DIR:" with ContainerRunner.sentinel.
  rewrite !ResolveAddr_sentinel. f_equal. f_equal.
  rewrite !Join_two by exact Hne. apply Clean_double_slash.
Qed.

Lemma ResolveAddr_remainder_leading_slash_witness :
  ContainerRunner.ResolveAddr (sample_container "/tmp/abc") "unix"
    "PLUGIN_UNIX_SOCKET_DIR:/etc/passwd"
  = ContainerRunner.ResolveAddr (sample_container "/tmp/abc") "unix"
      "PLUGIN_UNIX_SOCKET_DIR:etc/passwd".
Proof.
  apply (ResolveAddr_remainder_leading_slash (sample_container "/tmp/abc")
           "etc/passwd").
  discriminate.
Defined.

(** With an empty host directory the same remainder is an absolute path. *)
Example ResolveAddr_empty_host_absolute_remainder :
  ContainerRunner.ResolveAddr (sample_container EmptyString) "unix"
    "PLUGIN_UNIX_SOCKET_DIR:/etc/passwd"
  = Ok (net.UnixAddr "/etc/passwd" "unix").
Proof. reflexivity. Qed.

(** ** The life of a container runner *)

(** X6.  On a runner fresh from [NewContainerRunner], [Start] returns the
    error of the first engine request that fails and issues no request
    after it; [Stdout()] and [Stderr()] are set exactly when [Start]
    returns nil, and the goroutine that feeds them is spawned only then.
    [Start] neither touches the file system nor closes the client. *)
Theorem ContainerRunner_Start_streams (cmd : exec.Cmd) (cfg : config.ContainerConfig)
    (dir : string) (c : ContainerRunner.t) (create : result string)
    (start logs : option error) (w : World) :
  ContainerRunner.NewContainerRunner None cmd cfg dir = Ok c ->
  let r := ContainerRunner.Start create start logs c w in
  let img := container.Image (config.ContainerConfig' cfg) in
  fs (world_of r) = fs w /\ clientOpen (world_of r) = clientOpen w
  /\ match create, start, logs with
     | Err e, _, _ =>
         error_of r = Some e
         /\ trace (world_of r) = trace w ++ [EvContainerCreate img]
         /\ ContainerRunner.Stdout (runner_of r) = None
         /\ ContainerRunner.Stderr (runner_of r) = None
     | Ok i, Some e, _ =>
         error_of r = Some e
         /\ trace (world_of r) = trace w ++ [EvContainerCreate img; EvContainerStart i]
         /\ ContainerRunner.Stdout (runner_of r) = None
         /\ ContainerRunner.Stderr (runner_of r) = None
     | Ok i, None, Some e =>
         error_of r = Some e
         /\ trace (world_of r)
            = trace w ++ [EvContainerCreate img; EvContainerStart i; EvContainerLogs i]
         /\ ContainerRunner.Stdout (runner_of r) = None
         /\ ContainerRunner.Stderr (runner_of r) = None
     | Ok i, None, None =>
         error_of r = None
         /\ trace (world_of r)
            = trace w ++ [EvContainerCreate img; EvContainerStart i;
                          EvContainerLogs i; EvDemuxSpawned i]
         /\ ContainerRunner.Stdout (runner_of r) = Some (IoPipe i false)
         /\ ContainerRunner.Stderr (runner_of r) = Some (IoPipe i true)
     end.
Proof.
  intros H. cbn in H. injection H as <-. cbn zeta.
  unfold ContainerRunner.Start.
  destruct create as [i|e]; [destruct start as [e|]; [|destruct logs as [e|]]|];
    cbn; rewrite <- ?app_assoc; repeat split.
Qed.

Lemma ContainerRunner_Start_streams_witness :
  ContainerRunner.Stdout
    (runner_of (ContainerRunner.Start (Ok "3f4e8a") None
                  (Some (ExternalError "no such container"))
                  (sample_container "/tmp/abc") sample_world))
  = None.
Proof.
  exact (proj1 (proj2 (proj2 (proj2 (proj2
           (ContainerRunner_Start_streams sample_cmd (sample_cfg 0) "/tmp/abc"
              (sample_container "/tmp/abc") (Ok "3f4e8a") None
              (Some (ExternalError "no such container")) sample_world eq_refl)))))).
Defined.

Lemma ContainerRunner_Kill_trace (stop : option error) (c : ContainerRunner.t)
    (w : World) :
  error_of (ContainerRunner.Kill stop c w)
  = (if String.eqb (ContainerRunner.id c) EmptyString then None else stop)
  /\ trace (world_of (ContainerRunner.Kill stop c w))
     = trace w
       ++ (if String.eqb (ContainerRunner.id c) EmptyString then []
           else [EvContainerStop (ContainerRunner.id c)])
       ++ [EvRemoveAll (ContainerRunner.hostSocketDir c); EvClientClose].
Proof.
  rewrite ContainerRunner_Kill_unfold.
  destruct (String.eqb (ContainerRunner.id c) EmptyString);
    cbn [error_of world_of fst snd ClientClose trace emit];
    rewrite (proj1 (RemoveAll_trace _ _)); cbn [trace emit];
    rewrite <- ?app_assoc; split; reflexivity.
Qed.

(** X7.  [Kill] after a [Start] on a fresh runner: when the create request
    had failed, [Kill] issues no stop request and returns nil; when the
    container was created (under an id that is not empty), [Kill] asks the
    engine to stop it and returns the engine's answer, also when [Start]
    itself had failed at the start or the log request.  In every case the
    host directory is removed and the client closed afterwards. *)
Theorem ContainerRunner_Kill_after_Start (cmd : exec.Cmd)
    (cfg : config.ContainerConfig) (dir : string) (c : ContainerRunner.t)
    (create : result string) (start logs stop : option error) (w : World) :
  ContainerRunner.NewContainerRunner None cmd cfg dir = Ok c ->
  let r1 := ContainerRunner.Start create start logs c w in
  let r2 := ContainerRunner.Kill stop (runner_of r1) (world_of r1) in
  match create with
  | Err _ =>
      error_of r2 = None
      /\ trace (world_of r2)
         = trace (world_of r1) ++ [EvRemoveAll dir; EvClientClose]
  | Ok i =>
      if String.eqb i EmptyString
      then error_of r2 = None
           /\ trace (world_of r2)
              = trace (world_of r1) ++ [EvRemoveAll dir; EvClientClose]
      else error_of r2 = stop
           /\ trace (world_of r2)
              = trace (world_of r1)
                ++ [EvContainerStop i; EvRemoveAll dir; EvClientClose]
  end.
Proof.
  intros H. cbn zeta.
  pose proof (ContainerRunner_Start_id create start logs c w) as Hid.
  assert (Hdir : ContainerRunner.hostSocketDir
                   (runner_of (ContainerRunner.Start create start logs c w)) = dir).
  { cbn in H. injection H as <-. unfold ContainerRunner.Start.
    destruct create; [|reflexivity]. destruct start; [reflexivity|].
    destruct logs; reflexivity. }
  assert (Hc : ContainerRunner.id c = EmptyString)
    by (cbn in H; injection H as <-; reflexivity).
  set (r1 := ContainerRunner.Start create start logs c w) in *.
  destruct (ContainerRunner_Kill_trace stop (runner_of r1) (world_of r1)) as [He Ht].
  rewrite Hdir in Ht. rewrite He, Ht.
  destruct create as [i|e].
  - rewrite Hid. destruct (String.eqb i EmptyString); split; reflexivity.
  - rewrite Hid, Hc. split; reflexivity.
Qed.

Lemma ContainerRunner_Kill_after_Start_witness :
  error_of (ContainerRunner.Kill (Some (ExternalError "engine gone"))
              (runner_of (ContainerRunner.Start (Ok "3f4e8a")
                            (Some (ExternalError "driver failed")) None
                            (sample_container "/tmp/abc") sample_world))
              (world_of (ContainerRunner.Start (Ok "3f4e8a")
                           (Some (ExternalError "driver failed")) None
                           (sample_container "/tmp/abc") sample_world)))
  = Some (ExternalError "engine gone")
  /\ trace (world_of
              (ContainerRunner.Kill (Some (ExternalError "engine gone"))
                 (runner_of (ContainerRunner.Start (Ok "3f4e8a")
                               (Some (ExternalError "driver failed")) None
                               (sample_container "/tmp/abc") sample_world))
                 (world_of (ContainerRunner.Start (Ok "3f4e8a")
                              (Some (ExternalError "driver failed")) None
                              (sample_container "/tmp/abc") sample_world))))
     = [EvContainerCreate "plugin-image:latest"; EvContainerStart "3f4e8a";
        EvContainerStop "3f4e8a"; EvRemoveAll "/tmp/abc"; EvClientClose].
Proof.
  exact (ContainerRunner_Kill_after_Start sample_cmd (sample_cfg 0) "/tmp/abc"
           (sample_container "/tmp/abc") (Ok "3f4e8a")
           (Some (ExternalError "driver failed")) None
           (Some (ExternalError "engine gone")) sample_world eq_refl).
Defined.


Lemma ContainerRunner_step_no_kill_world (o : ContainerRunner.Op)
    (st : ContainerRunner.t * World) :
  is_kill o = false ->
  fs (snd (ContainerRunner.step o st)) = fs (snd st)
  /\ clientOpen (snd (ContainerRunner.step o st)) = clientOpen (snd st).
Proof.
  destruct st as [c w].
  destruct o as [create start logs|ev|stop|img]; cbn [ContainerRunner.step is_kill snd];
    intros H; try discriminate.
  - unfold ContainerRunner.Start.
    destruct create; [|split; reflexivity]. destruct start; [split; reflexivity|].
    destruct logs; split; reflexivity.
  - unfold ContainerRunner.Wait. destruct ev as [[e|]|st]; try (split; reflexivity).
    destruct (container.WaitError st); split; reflexivity.
  - split; reflexivity.
Qed.

Lemma CmdRunner_step_world (o : CmdRunner.Op) (st : CmdRunner.t * World) :
  fs (snd (CmdRunner.step o st)) = fs (snd st)
  /\ clientOpen (snd (CmdRunner.step o st)) = clientOpen (snd st).
Proof.
  destruct st as [c w]. destruct o as [spawn|exit|answer|p]; cbn [CmdRunner.step snd].
  - unfold CmdRunner.Start, exec.Start.
    destruct (exec.Process (CmdRunner.cmd c)); [split; reflexivity|].
    destruct spawn; split; reflexivity.
  - unfold CmdRunner.Wait, exec.Wait.
    destruct (exec.Process (CmdRunner.cmd c)); [|split; reflexivity].
    destruct (exec.waited (CmdRunner.cmd c)); split; reflexivity.
  - unfold CmdRunner.Kill.
    destruct (exec.Process (CmdRunner.cmd c)); split; reflexivity.
  - split; reflexivity.
Qed.

(** X8.  Only [Kill] of the container runner removes files or closes the
    engine client: a sequence of operations of the container runner
    without a [Kill], and any sequence of operations of the local runner,
    leaves the file system and the client connection as they were. *)
Theorem only_Kill_releases :
  (forall ops c w,
      forallb (fun o => negb (is_kill o)) ops = true ->
      fs (snd (ContainerRunner.run ops (c, w))) = fs w
      /\ clientOpen (snd (ContainerRunner.run ops (c, w))) = clientOpen w)
  /\ (forall ops c w,
         fs (snd (CmdRunner.run ops (c, w))) = fs w
         /\ clientOpen (snd (CmdRunner.run ops (c, w))) = clientOpen w).
Proof.
  split.
  - intros ops. induction ops as [|o ops IH]; intros c w H; [split; reflexivity|].
    cbn [forallb] in H. apply andb_true_iff in H as [Ho H].
    apply negb_true_iff in Ho.
    cbn [ContainerRunner.run fold_left].
    fold (ContainerRunner.run ops (ContainerRunner.step o (c, w))).
    destruct (ContainerRunner_step_no_kill_world o (c, w) Ho) as [Hfs Hcl].
    destruct (ContainerRunner.step o (c, w)) as [c1 w1]. cbn [snd] in *.
    destruct (IH c1 w1 H) as [Hfs' Hcl']. split; congruence.
  - intros ops. induction ops as [|o ops IH]; intros c w; [split; reflexivity|].
    cbn [CmdRunner.run fold_left].
    fold (CmdRunner.run ops (CmdRunner.step o (c, w))).
    destruct (CmdRunner_step_world o (c, w)) as [Hfs Hcl].
    destruct (CmdRunner.step o (c, w)) as [c1 w1]. cbn [snd] in *.
    destruct (IH c1 w1) as [Hfs' Hcl']. split; congruence.
Qed.

Lemma only_Kill_releases_witness :
  fs (snd (ContainerRunner.run
             [ContainerRunner.OpStart (Ok "3f4e8a") None None;
              ContainerRunner.OpWait (ContainerRunner.FromStatusCh
                                        (container.mkWaitResponse None 0%Z))]
             (sample_container "/tmp/abc", sample_world)))
  = ["/tmp/abc"; "/tmp/abc/plugin.sock"; "/tmp/other"].
Proof.
  exact (proj1 (proj1 only_Kill_releases
                  [ContainerRunner.OpStart (Ok "3f4e8a") None None;
                   ContainerRunner.OpWait (ContainerRunner.FromStatusCh
                                             (container.mkWaitResponse None 0%Z))]
                  (sample_container "/tmp/abc") sample_world eq_refl)).
Defined.







(** ** The life of a local runner *)

Lemma CmdRunner_step_pid (o : CmdRunner.Op) (c : CmdRunner.t) (w : World) :
  match exec.Process (CmdRunner.cmd c) with
  | None => CmdRunner.pid c = 0%Z
  | Some p => CmdRunner.pid c = p
  end ->
  match exec.Process (CmdRunner.cmd (fst (CmdRunner.step o (c, w)))) with
  | None => CmdRunner.pid (fst (CmdRunner.step o (c, w))) = 0%Z
  | Some p => CmdRunner.pid (fst (CmdRunner.step o (c, w))) = p
  end
  /\ (forall p, exec.Process (CmdRunner.cmd c) = Some p ->
                exec.Process (CmdRunner.cmd (fst (CmdRunner.step o (c, w)))) = Some p).
Proof.
  intros Hinv. destruct o as [spawn|exit|answer|path']; cbn [CmdRunner.step].
  - unfold CmdRunner.Start, exec.Start.
    destruct (exec.Process (CmdRunner.cmd c)) as [p|] eqn:Hp.
    + cbn. rewrite Hp. split; [exact Hinv | intros q Hq; exact Hq].
    + destruct spawn as [q|e]; cbn.
      * split; [reflexivity | discriminate].
      * rewrite Hp. split; [exact Hinv | discriminate].
  - unfold CmdRunner.Wait, exec.Wait.
    destruct (exec.Process (CmdRunner.cmd c)) as [p|] eqn:Hp.
    + destruct (exec.waited (CmdRunner.cmd c)); cbn; rewrite ?Hp;
        (split; [exact Hinv | intros q Hq; exact Hq]).
    + cbn. rewrite Hp. split; [exact Hinv | discriminate].
  - unfold CmdRunner.Kill.
    destruct (exec.Process (CmdRunner.cmd c)) as [p|] eqn:Hp; cbn; rewrite Hp;
      (split; [exact Hinv | intros q Hq; exact Hq]).
  - cbn. split; [exact Hinv | intros q Hq; exact Hq].
Qed.

Lemma CmdRunner_run_pid (ops : list CmdRunner.Op) :
  forall c w,
    match exec.Process (CmdRunner.cmd c) with
    | None => CmdRunner.pid c = 0%Z
    | Some p => CmdRunner.pid c = p
    end ->
    match exec.Process (CmdRunner.cmd (fst (CmdRunner.run ops (c, w)))) with
    | None => CmdRunner.pid (fst (CmdRunner.run ops (c, w))) = 0%Z
    | Some p => CmdRunner.pid (fst (CmdRunner.run ops (c, w))) = p
    end
    /\ (forall p, exec.Process (CmdRunner.cmd c) = Some p ->
                  exec.Process (CmdRunner.cmd (fst (CmdRunner.run ops (c, w)))) = Some p).
Proof.
  induction ops as [|o ops IH]; intros c w Hinv.
  - split; [exact Hinv | intros p Hp; exact Hp].
  - cbn [CmdRunner.run fold_left]. fold (CmdRunner.run ops (CmdRunner.step o (c, w))).
    destruct (CmdRunner_step_pid o c w Hinv) as [H1 H2].
    destruct (CmdRunner.step o (c, w)) as [c1 w1]. cbn [fst] in *.
    destruct (IH c1 w1 H1) as [H3 H4].
    split; [exact H3 | intros p Hp; apply H4, H2, Hp].
Qed.

(** X11.  For a local runner made by [NewCmdRunner], after any sequence of
    operations: either no process has been spawned, [ID()] is "0" and
    [Kill] does nothing; or [ID()] is the decimal pid of the spawned
    process, [Kill] signals that very process and returns what the signal
    delivery reports, and no later operation changes [ID()] (a further
    [Start] fails without spawning). *)
Theorem CmdRunner_ID_names_the_killed_process
    (outPipe errPipe : result ReadCloser) (cmd cmd' : exec.Cmd) (c : CmdRunner.t)
    (ops more : list CmdRunner.Op) (w : World) (answer : option error) :
  CmdRunner.NewCmdRunner outPipe errPipe cmd = (cmd', Ok c) ->
  let c1 := fst (CmdRunner.run ops (c, w)) in
  let w1 := snd (CmdRunner.run ops (c, w)) in
  (CmdRunner.ID c1 = "0" /\ CmdRunner.Kill answer c1 w1 = (None, c1, w1))
  \/ (exists p,
         CmdRunner.ID c1 = fmt_d p
         /\ CmdRunner.Kill answer c1 w1 = (answer, c1, emit (EvProcessKill p) w1)
         /\ CmdRunner.ID (fst (CmdRunner.run more (c1, w1))) = fmt_d p).
Proof.
  intros H. apply NewCmdRunner_ok in H as (_ & Hpid & Hproc). cbn zeta.
  assert (Hinv : match exec.Process (CmdRunner.cmd c) with
                 | None => CmdRunner.pid c = 0%Z
                 | Some p => CmdRunner.pid c = p
                 end) by (rewrite Hproc; exact Hpid).
  destruct (CmdRunner_run_pid ops c w Hinv) as [H1 _].
  destruct (CmdRunner.run ops (c, w)) as [c1 w1]. cbn [fst snd] in *.
  destruct (exec.Process (CmdRunner.cmd c1)) as [p|] eqn:Hp.
  - right. exists p. unfold CmdRunner.ID, CmdRunner.Kill. rewrite Hp, H1.
    repeat split.
    assert (Hinv1 : match exec.Process (CmdRunner.cmd c1) with
                    | None => CmdRunner.pid c1 = 0%Z
                    | Some p => CmdRunner.pid c1 = p
                    end) by (rewrite Hp; exact H1).
    destruct (CmdRunner_run_pid more c1 w1 Hinv1) as [H3 H4].
    rewrite (H4 p Hp) in H3. rewrite H3. reflexivity.
  - left. unfold CmdRunner.ID, CmdRunner.Kill. rewrite Hp, H1. split; reflexivity.
Qed.

Lemma CmdRunner_ID_names_the_killed_process_witness :
  (CmdRunner.ID sample_spawned = "0"
   /\ CmdRunner.Kill None sample_spawned (mkWorld (fs sample_world) true [EvCmdStart])
      = (None, sample_spawned, mkWorld (fs sample_world) true [EvCmdStart]))
  \/ (exists p,
         CmdRunner.ID sample_spawned = fmt_d p
         /\ CmdRunner.Kill None sample_spawned
              (mkWorld (fs sample_world) true [EvCmdStart])
            = (None, sample_spawned,
               emit (EvProcessKill p) (mkWorld (fs sample_world) true [EvCmdStart]))
         /\ CmdRunner.ID
              (fst (CmdRunner.run [CmdRunner.OpStart (Ok 777%Z)]
                      (sample_spawned, mkWorld (fs sample_world) true [EvCmdStart])))
            = fmt_d p).
Proof.
  exact (CmdRunner_ID_names_the_killed_process (Ok (CmdPipe 3)) (Ok (CmdPipe 5))
           sample_cmd _ sample_local [CmdRunner.OpStart (Ok 4242%Z)]
           [CmdRunner.OpStart (Ok 777%Z)] sample_world None eq_refl).
Defined.

(** X12.  [NewCmdRunner] wants a command that is fresh: it fails on a
    command that has been started; it fails on a command that a runner
    was already made from; and after a call that failed at the second
    pipe, a new call on the same command fails as well, whatever the
    operating system answers then. *)
Theorem NewCmdRunner_wants_a_fresh_command :
  (forall outPipe errPipe cmd p,
      exec.Process cmd = Some p ->
      exists e, CmdRunner.NewCmdRunner outPipe errPipe cmd = (cmd, Err e))
  /\ (forall outPipe errPipe cmd cmd' c outPipe' errPipe',
         CmdRunner.NewCmdRunner outPipe errPipe cmd = (cmd', Ok c) ->
         CmdRunner.NewCmdRunner outPipe' errPipe' cmd'
         = (cmd', Err (errorString "exec: Stdout already set")))
  /\ (forall pr e cmd outPipe' errPipe',
         exec.StdoutSet cmd = false -> exec.StderrSet cmd = false ->
         exec.Process cmd = None ->
         exists cmd',
           CmdRunner.NewCmdRunner (Ok pr) (Err e) cmd = (cmd', Err e)
           /\ CmdRunner.NewCmdRunner outPipe' errPipe' cmd'
              = (cmd', Err (errorString "exec: Stdout already set"))).
Proof.
  repeat apply conj.
  - intros outPipe errPipe cmd p Hp.
    unfold CmdRunner.NewCmdRunner, exec.StdoutPipe. rewrite Hp.
    destruct (exec.StdoutSet cmd); eexists; reflexivity.
  - intros outPipe errPipe cmd cmd' c outPipe' errPipe'.
    unfold CmdRunner.NewCmdRunner at 1. unfold exec.StdoutPipe, exec.StderrPipe.
    destruct (exec.StdoutSet cmd); [discriminate|].
    destruct (exec.Process cmd); [discriminate|].
    destruct outPipe as [pr|e]; [|discriminate]. cbn.
    destruct (exec.StderrSet cmd); [discriminate|].
    destruct errPipe as [pe|e]; [|discriminate].
    intros H. injection H as <- _. reflexivity.
  - intros pr e cmd outPipe' errPipe' Hout Herr Hp.
    eexists. unfold CmdRunner.NewCmdRunner, exec.StdoutPipe, exec.StderrPipe.
    rewrite Hout, Hp. cbn. rewrite Herr. cbn. split; reflexivity.
Qed.

Lemma NewCmdRunner_wants_a_fresh_command_witness :
  (exists e, CmdRunner.NewCmdRunner (Ok (CmdPipe 7)) (Ok (CmdPipe 9))
               (CmdRunner.cmd sample_spawned)
             = (CmdRunner.cmd sample_spawned, Err e))
  /\ CmdRunner.NewCmdRunner (Ok (CmdPipe 7)) (Ok (CmdPipe 9)) (CmdRunner.cmd sample_local)
     = (CmdRunner.cmd sample_local, Err (errorString "exec: Stdout already set"))
  /\ (exists cmd',
         CmdRunner.NewCmdRunner (Ok (CmdPipe 3)) (Err (ExternalError "too many open files"))
           sample_cmd
         = (cmd', Err (ExternalError "too many open files"))
         /\ CmdRunner.NewCmdRunner (Ok (CmdPipe 3)) (Ok (CmdPipe 5)) cmd'
            = (cmd', Err (errorString "exec: Stdout already set"))).
Proof.
  destruct NewCmdRunner_wants_a_fresh_command as (H1 & H2 & H3).
  split; [|split].
  - exact (H1 _ _ (CmdRunner.cmd sample_spawned) 4242%Z eq_refl).
  - exact (H2 (Ok (CmdPipe 3)) (Ok (CmdPipe 5)) sample_cmd _ sample_local _ _ eq_refl).
  - exact (H3 (CmdPipe 3) (ExternalError "too many open files") sample_cmd
              (Ok (CmdPipe 3)) (Ok (CmdPipe 5)) eq_refl eq_refl eq_refl).
Defined.

Lemma CmdRunner_step_streams (o : CmdRunner.Op) (st : CmdRunner.t * World) :
  CmdRunner.stdout (fst (CmdRunner.step o st)) = CmdRunner.stdout (fst st)
  /\ CmdRunner.stderr (fst (CmdRunner.step o st)) = CmdRunner.stderr (fst st).
Proof.
  destruct st as [c w]. destruct o as [spawn|exit|answer|p]; cbn [CmdRunner.step fst].
  - unfold CmdRunner.Start, exec.Start.
    destruct (exec.Process (CmdRunner.cmd c)); [split; reflexivity|].
    destruct spawn; split; reflexivity.
  - unfold CmdRunner.Wait, exec.Wait.
    destruct (exec.Process (CmdRunner.cmd c)); [|split; reflexivity].
    destruct (exec.waited (CmdRunner.cmd c)); split; reflexivity.
  - unfold CmdRunner.Kill.
    destruct (exec.Process (CmdRunner.cmd c)); split; reflexivity.
  - split; reflexivity.
Qed.

(** X13.  [Stdout()] and [Stderr()] of a local runner are the two pipes
    handed to [NewCmdRunner] by the command, from construction on and
    through every later operation. *)
Theorem CmdRunner_streams_fixed_at_construction
    (outPipe errPipe : result ReadCloser) (cmd cmd' : exec.Cmd) (c : CmdRunner.t)
    (ops : list CmdRunner.Op) (w : World) :
  CmdRunner.NewCmdRunner outPipe errPipe cmd = (cmd', Ok c) ->
  outPipe = Ok (CmdRunner.Stdout (fst (CmdRunner.run ops (c, w))))
  /\ errPipe = Ok (CmdRunner.Stderr (fst (CmdRunner.run ops (c, w)))).
Proof.
  intros H.
  assert (Hrun : forall ops st,
             CmdRunner.stdout (fst (CmdRunner.run ops st)) = CmdRunner.stdout (fst st)
             /\ CmdRunner.stderr (fst (CmdRunner.run ops st)) = CmdRunner.stderr (fst st)).
  { clear. intros ops. induction ops as [|o ops IH]; intros st; [split; reflexivity|].
    cbn [CmdRunner.run fold_left]. fold (CmdRunner.run ops (CmdRunner.step o st)).
    destruct (IH (CmdRunner.step o st)) as [H1 H2].
    destruct (CmdRunner_step_streams o st) as [H3 H4]. split; congruence. }
  destruct (Hrun ops (c, w)) as [H1 H2]. unfold CmdRunner.Stdout, CmdRunner.Stderr.
  rewrite H1, H2. cbn [fst]. clear Hrun H1 H2.
  unfold CmdRunner.NewCmdRunner, exec.StdoutPipe, exec.StderrPipe in H.
  destruct (exec.StdoutSet cmd); [discriminate|].
  destruct (exec.Process cmd); [discriminate|].
  destruct outPipe as [pr|e]; [|discriminate]. cbn in H.
  destruct (exec.StderrSet cmd); [discriminate|].
  destruct errPipe as [pe|e]; [|discriminate].
  injection H as _ <-. split; reflexivity.
Qed.

Lemma CmdRunner_streams_fixed_at_construction_witness :
  Ok (CmdPipe 3)
  = Ok (CmdRunner.Stdout
          (fst (CmdRunner.run [CmdRunner.OpStart (Ok 4242%Z); CmdRunner.OpKill None]
                  (sample_local, sample_world)))).
Proof.
  exact (proj1 (CmdRunner_streams_fixed_at_construction (Ok (CmdPipe 3)) (Ok (CmdPipe 5))
                  sample_cmd _ sample_local
                  [CmdRunner.OpStart (Ok 4242%Z); CmdRunner.OpKill None]
                  sample_world eq_refl)).
Defined.

(** ** Construction, again *)

(** X14.  [NewContainerRunner] edits the command and the configuration it
    is given in place: making a second runner from the objects a first one
    was made from leaves the host configuration with both bind mounts onto
    [/tmp], the first runner's and the second's, and the environment with
    the injected variables twice. *)
Theorem NewContainerRunner_edits_accumulate (cmd : exec.Cmd)
    (cfg : config.ContainerConfig) (dir1 dir2 : string) (c1 c2 : ContainerRunner.t) :
  ContainerRunner.NewContainerRunner None cmd cfg dir1 = Ok c1 ->
  ContainerRunner.NewContainerRunner None (ContainerRunner.cmd c1)
    (ContainerRunner.config c1) dir2 = Ok c2 ->
  let injected :=
    ["PLUGIN_UNIX_SOCKET_DIR=/tmp"]
    ++ (if Z.eqb (config.UnixSocketGroup cfg) 0 then []
        else [("PLUGIN_UNIX_SOCKET_GROUP=" ++ fmt_d (config.UnixSocketGroup cfg))%string]) in
  container.Mounts (config.HostConfig (ContainerRunner.config c2))
  = container.Mounts (config.HostConfig cfg)
    ++ [ContainerRunner.socketDirMount dir1; ContainerRunner.socketDirMount dir2]
  /\ exec.Env (ContainerRunner.cmd c2) = exec.Env cmd ++ injected ++ injected
  /\ container.Env (config.ContainerConfig' (ContainerRunner.config c2))
     = exec.Env cmd ++ injected ++ injected.
Proof.
  intros H1 H2. cbn in H1. injection H1 as <-. cbn in H2. injection H2 as <-.
  cbn. destruct (Z.eqb (config.UnixSocketGroup cfg) 0); cbn;
    rewrite <- !app_assoc; repeat split.
Qed.

Lemma NewContainerRunner_edits_accumulate_witness :
  container.Mounts (config.HostConfig
                      (ContainerRunner.config
                         (ContainerRunner.mk
                            (exec.mkCmd "/bin/sh" ["/bin/sh"; "-c"; "echo hello"]
                               ["HOME=/root"; "PLUGIN_UNIX_SOCKET_DIR=/tmp";
                                "PLUGIN_UNIX_SOCKET_DIR=/tmp"] false false None false)
                            (config.mkContainerConfig 0
                               (container.mkConfig "plugin-image:latest"
                                  ["HOME=/root"; "PLUGIN_UNIX_SOCKET_DIR=/tmp";
                                   "PLUGIN_UNIX_SOCKET_DIR=/tmp"])
                               (container.mkHostConfig
                                  [ContainerRunner.socketDirMount "/tmp/abc";
                                   ContainerRunner.socketDirMount "/tmp/xyz"]))
                            "/tmp/xyz" None None "plugin-image:latest" EmptyString)))
  = [] ++ [ContainerRunner.socketDirMount "/tmp/abc";
           ContainerRunner.socketDirMount "/tmp/xyz"].
Proof.
  exact (proj1 (NewContainerRunner_edits_accumulate sample_cmd (sample_cfg 0)
                  "/tmp/abc" "/tmp/xyz" (sample_container "/tmp/abc") _
                  eq_refl eq_refl)).
Defined.

(** ** Identifiers, again *)

Lemma fmt_d_parses (n : Z) :
  NilZero.int_of_string (fmt_d n) = Some (Z.to_int n).
Proof.
  unfold fmt_d. apply NilZero.isi; destruct n as [|p|p]; cbn; try discriminate;
    intros H; injection H as H; exact (Unsigned.to_uint_nonnil p H).
Qed.

(** X15.  The [ID()] of a local runner determines its process id: it is
    the decimal numeral that reads back as that id, so two local runners
    whose [ID()] agree hold the same process id. *)
Theorem CmdRunner_ID_determines_pid (c1 c2 : CmdRunner.t) :
  option_map Z.of_int (NilZero.int_of_string (CmdRunner.ID c1)) = Some (CmdRunner.pid c1)
  /\ (CmdRunner.ID c1 = CmdRunner.ID c2 -> CmdRunner.pid c1 = CmdRunner.pid c2).
Proof.
  assert (H : forall c, option_map Z.of_int (NilZero.int_of_string (CmdRunner.ID c))
                        = Some (CmdRunner.pid c)).
  { intros c. unfold CmdRunner.ID. rewrite fmt_d_parses. cbn [option_map].
    rewrite DecimalZ.of_to. reflexivity. }
  split; [apply H|].
  intros E. pose proof (H c1) as H1. rewrite E, H in H1.
  injection H1 as H1. symmetry. exact H1.
Qed.

Lemma CmdRunner_ID_determines_pid_witness :
  CmdRunner.pid (CmdRunner.mk (CmdRunner.cmd sample_local) (CmdPipe 7) (CmdPipe 9)
                   "/bin/other" 4242%Z)
  = CmdRunner.pid sample_spawned.
Proof.
  exact (proj2 (CmdRunner_ID_determines_pid
                  (CmdRunner.mk (CmdRunner.cmd sample_local) (CmdPipe 7) (CmdPipe 9)
                     "/bin/other" 4242%Z)
                  sample_spawned) eq_refl).
Defined.

(** ** [path.Clean] gives paths it leaves alone *)

Lemma copy_element_take_drop (s : string) (out : lazybuf) :
  copy_element s out
  = (drop_element s, rev (list_ascii_of_string (take_element s)) ++ out).
Proof.
  revert out. induction s as [|c s IH]; intros out; [reflexivity|].
  cbn [copy_element take_element drop_element].
  destruct (is_slash c); [reflexivity|].
  rewrite IH. cbn [list_ascii_of_string rev]. rewrite <- app_assoc. reflexivity.
Qed.

Lemma drop_element_length (s : string) :
  String.length (drop_element s) <= String.length s.
Proof.
  induction s as [|c s IH]; [cbn; lia|]. cbn [drop_element].
  destruct (is_slash c); cbn [String.length]; lia.
Qed.

Lemma has_slash_take_element (s : string) : has_slash (take_element s) = false.
Proof.
  induction s as [|c s IH]; [reflexivity|]. cbn [take_element].
  destruct (is_slash c) eqn:Hs; [reflexivity|]. cbn [has_slash]. rewrite Hs, IH.
  reflexivity.
Qed.

Lemma take_element_empty (s : string) :
  String.eqb (take_element s) EmptyString = end_or_slash s.
Proof.
  destruct s as [|c s]; [reflexivity|]. cbn [take_element end_or_slash].
  destruct (is_slash c); reflexivity.
Qed.

(** What the loop copies as a real path element is a valid base name. *)
Lemma take_element_valid (c : ascii) (rest1 : string) :
  is_slash c = false ->
  is_dot c && end_or_slash rest1 = false ->
  is_dot c && match rest1 with
              | String c1 rest2 => is_dot c1 && end_or_slash rest2
              | EmptyString => false
              end = false ->
  valid_basename (take_element (String c rest1)) = true.
Proof.
  intros Hs H1 H2. unfold valid_basename. cbn [take_element]. rewrite Hs.
  cbn [String.eqb negb andb has_slash]. rewrite Hs, has_slash_take_element.
  cbn [orb negb andb].
  change (Ascii.eqb c ".") with (is_dot c).
  destruct (is_dot c) eqn:Hd; [|reflexivity]. cbn [andb] in *.
  rewrite take_element_empty, H1. cbn [negb andb].
  destruct rest1 as [|c1 rest2]; [reflexivity|].
  cbn [take_element]. destruct (is_slash c1) eqn:Hs1; [reflexivity|].
  cbn [String.eqb]. change (Ascii.eqb c1 ".") with (is_dot c1).
  rewrite take_element_empty.
  destruct (is_dot c1); [cbn [andb] in H2; rewrite H2|]; reflexivity.
Qed.

(** The loop on a valid base name writes it, after a slash where one is
    needed. *)
Lemma clean_run_element (rooted : bool) (el : string) (out : lazybuf) (dd : nat) :
  valid_basename el = true ->
  clean_run rooted el out dd
  = (rev (list_ascii_of_string el)
     ++ (if (rooted && negb (List.length out =? 1)%nat)
            || (negb rooted && negb (List.length out =? 0)%nat)
         then "/"%char :: out else out),
     dd).
Proof.
  unfold valid_basename. intros Hv.
  apply andb_true_iff in Hv as [Hv Hdd]. apply andb_true_iff in Hv as [Hv Hd].
  apply andb_true_iff in Hv as [Hne Hns].
  apply negb_true_iff in Hns, Hd, Hdd.
  destruct el as [|c b1]; [discriminate|].
  rewrite clean_run_unfold.
  assert (Hc : is_slash c = false) by (simpl in Hns; now apply orb_false_iff in Hns).
  rewrite Hc.
  assert (H1 : is_dot c && end_or_slash b1 = false).
  { destruct (is_dot c) eqn:E; [|reflexivity]. apply is_dot_eq in E. subst c.
    destruct b1 as [|c1 b2]; [discriminate|]. simpl in *.
    apply orb_false_iff in Hns as [H _]. exact H. }
  rewrite H1.
  assert (H2 : is_dot c && match b1 with
                           | String c1 rest2 => is_dot c1 && end_or_slash rest2
                           | EmptyString => false
                           end = false).
  { destruct (is_dot c) eqn:E; [|reflexivity]. apply is_dot_eq in E. subst c.
    destruct b1 as [|c1 b2]; [reflexivity|].
    destruct (is_dot c1) eqn:E1; [|reflexivity]. apply is_dot_eq in E1. subst c1.
    destruct b2 as [|c2 b3]; [discriminate|]. simpl in *.
    apply orb_false_iff in Hns as [H _]. exact H. }
  rewrite H2. cbn zeta.
  rewrite copy_element_no_slash by exact Hns.
  rewrite clean_run_nil. reflexivity.
Qed.

Lemma reach_dd_le (rooted : bool) (out : lazybuf) (dd : nat) :
  reach rooted out dd -> dd <= List.length out.
Proof.
  induction 1 as [|out dd Hr H IH Hle|out dd el H IH Hv].
  - destruct rooted; cbn; lia.
  - cbn [List.length]. lia.
  - rewrite length_app.
    destruct ((rooted && negb (List.length out =? 1)%nat)
              || (negb rooted && negb (List.length out =? 0)%nat));
      cbn [List.length]; lia.
Qed.

Lemma reach_rooted_dd (out : lazybuf) (dd : nat) : reach true out dd -> dd = 1.
Proof.
  induction 1 as [|out dd Hr H IH Hle|out dd el H IH Hv];
    [reflexivity | discriminate | exact IH].
Qed.

(** A state the loop can be in is the state in which it ends on the path
    written so far. *)
Lemma reach_reproduces (rooted : bool) (out : lazybuf) (dd : nat) :
  reach rooted out dd ->
  clean_state (lazybuf_string out) = (out, dd)
  /\ is_rooted (lazybuf_string out) = rooted.
Proof.
  induction 1 as [|out dd Hr H [IH1 IH2] Hle|out dd el H [IH1 IH2] Hv].
  - destruct rooted; split; reflexivity.
  - subst rooted. destruct out as [|a out'].
    + split; reflexivity.
    + cbn [List.length Nat.ltb Nat.leb].
      change ("."%char :: "."%char :: "/"%char :: a :: out')
        with (["."%char; "."%char; "/"%char] ++ a :: out').
      assert (Hne : lazybuf_string (a :: out') <> EmptyString).
      { unfold lazybuf_string. intros E. apply (f_equal String.length) in E.
        rewrite length_string_of_list_ascii, length_rev in E. discriminate. }
      rewrite lazybuf_string_app.
      change (string_of_list_ascii (rev ["."%char; "."%char; "/"%char]))
        with (String "/" "..").
      split; [|rewrite is_rooted_app by exact Hne; exact IH2].
      rewrite clean_state_app by exact Hne. rewrite IH1, IH2. cbn [fst snd].
      rewrite clean_run_unfold.
      cbn [is_slash is_dot Ascii.eqb Bool.eqb end_or_slash andb negb].
      apply Nat.ltb_ge in Hle. rewrite Hle. cbn [List.length Nat.ltb Nat.leb].
      rewrite clean_run_nil. reflexivity.
  - pose proof (reach_dd_le _ _ _ H) as Hdd.
    assert (Hel : exists c b1, el = String c b1 /\ is_slash c = false).
    { unfold valid_basename in Hv.
      apply andb_true_iff in Hv as [Hv _]. apply andb_true_iff in Hv as [Hv _].
      apply andb_true_iff in Hv as [Hne Hns]. apply negb_true_iff in Hns.
      destruct el as [|c b1]; [discriminate|]. exists c, b1. split; [reflexivity|].
      cbn [has_slash] in Hns. apply orb_false_iff in Hns as [Hc _]. exact Hc. }
    destruct Hel as (c & b1 & Eel & Hc).
    destruct out as [|a out'].
    + cbn in IH2. subst rooted. cbn in Hdd. assert (dd = 0) by lia. subst dd.
      cbn [List.length Nat.eqb negb andb orb]. rewrite app_nil_r.
      unfold lazybuf_string at 1 2. rewrite rev_involutive, string_of_list_ascii_of_string.
      split.
      * rewrite Eel at 1. cbn [clean_state]. rewrite Hc. rewrite <- Eel.
        rewrite clean_run_element by exact Hv.
        cbn [List.length Nat.eqb negb andb orb]. rewrite app_nil_r. reflexivity.
      * rewrite Eel. exact Hc.
    + assert (Hne : lazybuf_string (a :: out') <> EmptyString).
      { unfold lazybuf_string. intros E. apply (f_equal String.length) in E.
        rewrite length_string_of_list_ascii, length_rev in E. discriminate. }
      destruct ((rooted && negb (List.length (a :: out') =? 1)%nat)
                || (negb rooted && negb (List.length (a :: out') =? 0)%nat)) eqn:Hcond.
      * rewrite lazybuf_string_elem.
        change ("/" ++ el)%string with (String "/" el).
        split; [|rewrite is_rooted_app by exact Hne; exact IH2].
        rewrite clean_state_app by exact Hne. rewrite IH1, IH2. cbn [fst snd].
        rewrite clean_run_element by exact Hv. rewrite Hcond. reflexivity.
      * destruct rooted; [|cbn in Hcond; discriminate].
        cbn [andb negb orb] in Hcond. rewrite orb_false_r in Hcond.
        apply negb_false_iff in Hcond. apply Nat.eqb_eq in Hcond.
        destruct out' as [|a' out'']; [|discriminate]. clear Hcond.
        cbn in IH2. unfold is_slash in IH2. apply Ascii.eqb_eq in IH2. subst a.
        apply reach_rooted_dd in H. subst dd.
        unfold lazybuf_string at 1 2. rewrite rev_app_distr, rev_involutive.
        cbn [rev app string_of_list_ascii]. rewrite string_of_list_ascii_of_string.
        split; [|reflexivity].
        cbn [clean_state is_slash Ascii.eqb Bool.eqb].
        rewrite clean_run_element by exact Hv. reflexivity.
Qed.

Lemma backtrack_from_over_element (dd : nat) (out0 : lazybuf) (l : list ascii) :
  forall last,
    is_slash last = false ->
    Forall (fun c => is_slash c = false) l ->
    dd <= List.length out0 ->
    backtrack_from dd last (l ++ "/"%char :: out0) = out0.
Proof.
  induction l as [|c l IH]; intros last Hlast Hl Hdd.
  - cbn [app backtrack_from List.length]. rewrite Hlast.
    replace (dd <? S (List.length out0))%nat with true
      by (symmetry; apply Nat.ltb_lt; lia).
    cbn [andb negb]. destruct out0 as [|c0 out0']; [reflexivity|].
    cbn [backtrack_from]. rewrite andb_false_r. reflexivity.
  - inversion Hl as [|c' l' Hc Hl']; subst.
    cbn [app backtrack_from]. rewrite Hlast.
    replace (dd <? List.length (c :: l ++ "/"%char :: out0))%nat with true
      by (symmetry; apply Nat.ltb_lt; cbn [List.length]; rewrite length_app;
          cbn [List.length]; lia).
    cbn [andb negb]. apply IH; assumption.
Qed.

Lemma backtrack_from_over_first_element (out0 : lazybuf) (l : list ascii) :
  forall last,
    is_slash last = false ->
    Forall (fun c => is_slash c = false) l ->
    backtrack_from (List.length out0) last (l ++ out0) = out0.
Proof.
  induction l as [|c l IH]; intros last Hlast Hl.
  - cbn [app]. destruct out0 as [|c0 out0']; [reflexivity|].
    cbn [backtrack_from]. rewrite Nat.ltb_irrefl. reflexivity.
  - inversion Hl as [|c' l' Hc Hl']; subst.
    cbn [app backtrack_from]. rewrite Hlast.
    replace (List.length out0 <? List.length (c :: l ++ out0))%nat with true
      by (symmetry; apply Nat.ltb_lt; cbn [List.length]; rewrite length_app; lia).
    cbn [andb negb]. apply IH; assumption.
Qed.

Lemma no_slash_Forall (el : string) :
  has_slash el = false ->
  Forall (fun c => is_slash c = false) (list_ascii_of_string el).
Proof.
  induction el as [|c el IH]; intros H; [constructor|].
  cbn [has_slash] in H. apply orb_false_iff in H as [Hc H].
  cbn [list_ascii_of_string]. constructor; [exact Hc | apply IH, H].
Qed.

(** Taking back one element from a state the loop can be in gives such a
    state again: the one the element was written from. *)
Lemma backtrack_reach (rooted : bool) (out : lazybuf) (dd : nat) :
  reach rooted out dd -> dd < List.length out ->
  reach rooted (backtrack dd out) dd.
Proof.
  intros H. destruct H as [|out dd Hr H Hle|out dd el H Hv].
  - destruct rooted; cbn; lia.
  - cbn [List.length]. lia.
  - intros _.
    pose proof (reach_dd_le _ _ _ H) as Hdd.
    assert (Hns : has_slash el = false /\ el <> EmptyString).
    { unfold valid_basename in Hv.
      apply andb_true_iff in Hv as [Hv _]. apply andb_true_iff in Hv as [Hv _].
      apply andb_true_iff in Hv as [Hne Hns]. apply negb_true_iff in Hns.
      split; [exact Hns | destruct el; [discriminate | discriminate]]. }
    destruct Hns as [Hns Hne].
    pose proof (Forall_rev (no_slash_Forall el Hns)) as Hall.
    destruct (rev (list_ascii_of_string el)) as [|c l] eqn:Erev.
    { apply (f_equal (@List.length ascii)) in Erev. rewrite length_rev in Erev.
      destruct el; [congruence | discriminate]. }
    inversion Hall as [|c' l' Hc Hl]; subst.
    replace (backtrack dd
               ((c :: l)
                ++ (if (rooted && negb (List.length out =? 1)%nat)
                       || (negb rooted && negb (List.length out =? 0)%nat)
                    then "/"%char :: out else out)))
      with out; [exact H|].
    cbn [app backtrack].
    destruct ((rooted && negb (List.length out =? 1)%nat)
              || (negb rooted && negb (List.length out =? 0)%nat)) eqn:Hcond.
    + symmetry. apply backtrack_from_over_element; assumption.
    + assert (Hlen : dd = List.length out).
      { destruct rooted.
        - apply reach_rooted_dd in H. cbn [andb negb orb] in Hcond.
          rewrite orb_false_r in Hcond. apply negb_false_iff in Hcond.
          apply Nat.eqb_eq in Hcond. lia.
        - cbn [andb negb orb] in Hcond. apply negb_false_iff in Hcond.
          apply Nat.eqb_eq in Hcond. lia. }
      rewrite Hlen. symmetry. apply backtrack_from_over_first_element; assumption.
Qed.

(** The loop goes from states it can be in to states it can be in. *)
Lemma clean_run_reach (rooted : bool) (n : nat) :
  forall rest out dd,
    String.length rest <= n ->
    reach rooted out dd ->
    reach rooted (fst (clean_run rooted rest out dd))
                 (snd (clean_run rooted rest out dd)).
Proof.
  induction n as [|n IH]; intros rest out dd Hlen Hr.
  - destruct rest; [exact Hr | simpl in Hlen; lia].
  - destruct rest as [|c rest1]; [exact Hr|].
    simpl in Hlen. rewrite clean_run_unfold.
    destruct (is_slash c) eqn:Hs; [apply IH; [lia | exact Hr]|].
    destruct (is_dot c && end_or_slash rest1) eqn:H1; [apply IH; [lia | exact Hr]|].
    destruct (is_dot c && match rest1 with
                          | String c1 rest2 => is_dot c1 && end_or_slash rest2
                          | EmptyString => false
                          end) eqn:H2.
    + destruct rest1 as [|c1 rest2]; [rewrite andb_false_r in H2; discriminate|].
      cbn zeta. simpl in Hlen.
      destruct (dd <? List.length out)%nat eqn:Hlt.
      * apply Nat.ltb_lt in Hlt. apply IH; [lia|]. apply backtrack_reach; assumption.
      * apply Nat.ltb_ge in Hlt. destruct rooted; cbn [negb].
        -- apply IH; [lia | exact Hr].
        -- apply IH; [lia|]. exact (reach_dotdot false out dd eq_refl Hr Hlt).
    + cbn zeta. rewrite copy_element_take_drop.
      pose proof (drop_element_length (String c rest1)) as Hl.
      assert (Hd : drop_element (String c rest1) = drop_element rest1)
        by (cbn [drop_element]; rewrite Hs; reflexivity).
      pose proof (drop_element_length rest1) as Hl1.
      apply IH; [rewrite Hd; lia|].
      apply reach_element; [exact Hr|].
      apply take_element_valid; assumption.
Qed.

Lemma clean_state_reach (p : string) :
  reach (is_rooted p) (fst (clean_state p)) (snd (clean_state p)).
Proof.
  destruct p as [|c0 rest0]; [exact (reach_init false)|].
  cbn [clean_state is_rooted]. destruct (is_slash c0) eqn:Hs.
  - apply (clean_run_reach true (String.length rest0)); [lia | exact (reach_init true)].
  - apply (clean_run_reach false (String.length (String c0 rest0)));
      [lia | exact (reach_init false)].
Qed.

(** [Clean] leaves alone what it gives. *)
Lemma Clean_idempotent (p : string) : Clean (Clean p) = Clean p.
Proof.
  destruct (String.eqb_spec p EmptyString) as [->|Hp]; [reflexivity|].
  rewrite (Clean_state p) by exact Hp.
  pose proof (clean_state_reach p) as Hr.
  destruct (clean_state p) as [out dd]. cbn [fst snd] in *.
  destruct out as [|a out']; [reflexivity|].
  destruct (reach_reproduces _ _ _ Hr) as [Hs _].
  assert (Hne : lazybuf_string (a :: out') <> EmptyString).
  { unfold lazybuf_string. intros E. apply (f_equal String.length) in E.
    rewrite length_string_of_list_ascii, length_rev in E. discriminate. }
  rewrite Clean_state by exact Hne. rewrite Hs. reflexivity.
Qed.

(** X16.  Unless the host directory and what follows the sentinel are both
    empty, the path that [ResolveAddr] of the container runner gives is in
    clean form: [path.Clean] leaves it as it is. *)
Theorem ResolveAddr_path_is_clean (c : ContainerRunner.t) (r : string) :
  ContainerRunner.hostSocketDir c <> EmptyString \/ r <> EmptyString ->
  exists p,
    ContainerRunner.ResolveAddr c "unix" ("PLUGIN_UNIX_SOCKET_DIR:" ++ r)
    = Ok (net.UnixAddr p "unix")
    /\ Clean p = p.
Proof.
  intros H. change "PLUGIN_UNIX_SOCKET_DIR:" with ContainerRunner.sentinel.
  rewrite ResolveAddr_sentinel. eexists. split; [reflexivity|].
  destruct (String.eqb_spec (ContainerRunner.hostSocketDir c) EmptyString) as [E|E].
  - rewrite E, Join_nil_l. destruct H as [H|H]; [contradiction|].
    apply String.eqb_neq in H. rewrite H. apply Clean_idempotent.
  - rewrite Join_two by exact E. apply Clean_idempotent.
Qed.

Lemma ResolveAddr_path_is_clean_witness :
  exists p,
    ContainerRunner.ResolveAddr (sample_container "/tmp/abc/") "unix"
      "PLUGIN_UNIX_SOCKET_DIR:a/../b//c/./plugin.sock/"
    = Ok (net.UnixAddr p "unix")
    /\ Clean p = p.
Proof.
  apply (ResolveAddr_path_is_clean (sample_container "/tmp/abc/")
           "a/../b//c/./plugin.sock/").
  left. discriminate.
Defined.
